(** * alpaca-salon: post authoring, comment composer and navigation tabs

    A shallow embedding of the page components
    [src/layouts/NavigationLayout.tsx], [src/pages/post/[id].tsx] and
    [src/pages/post/[id]/update.tsx].  Component state (the [useState] and
    [useRef] cells, the form values) is a record that every handler maps to
    its successor; calls to the collaborators the pages consume (upload,
    mutations, toasts, router) are appended to a chronological log kept in
    the same record. *)

From Stdlib Require Import String Ascii List Bool Arith NArith ZArith QArith Lia.
From Stdlib Require Import DecimalString DecimalN Sorted.
Import ListNotations.
Close Scope Q_scope.
Local Open Scope nat_scope.
Local Open Scope string_scope.
Local Open Scope list_scope.

(** ** The JavaScript string operations the pages use *)

Module JS.

(** [s.startsWith(p)] *)
Definition startsWith (s p : string) : bool := String.prefix p s.

(** [s.split(sep)] for a separator of one character: the segments between
    the occurrences of [sep], the empty string giving one empty segment. *)
Fixpoint split (sep : ascii) (s : string) : list string :=
  match s with
  | EmptyString => [EmptyString]
  | String c rest =>
      if Ascii.eqb c sep then EmptyString :: split sep rest
      else match split sep rest with
           | seg :: segs => String c seg :: segs
           | [] => [String c EmptyString]
           end
  end.

(** Occurrences of a character in a string. *)
Fixpoint occurrences (c : ascii) (s : string) : nat :=
  match s with
  | EmptyString => 0
  | String d rest => (if Ascii.eqb d c then 1 else 0) + occurrences c rest
  end.

(** The line feed, ['\n']. *)
Definition LF : ascii := Ascii.ascii_of_nat 10.

(** [`${n}`] for a non-negative integer [n]: its decimal digits.  The
    counter this is applied to stays in the range where a JavaScript number
    is an exact integer, so it is taken in [N]. *)
Definition numberToString (n : N) : string :=
  NilEmpty.string_of_uint (N.to_uint n).

End JS.

(** ** Navigation tabs ([src/layouts/NavigationLayout.tsx]) *)

Module NavigationLayout.

Section Render.

(** The two colours come from [src/models/constants]. *)
Variables ALPACA_SALON_TEXT_COLOR ALPACA_SALON_ACHROMATIC_COLOR : string.

Definition doesPostListSelected (asPath : string) : bool :=
  String.eqb asPath "/".

Definition doesEventListSelected (asPath : string) : bool :=
  JS.startsWith asPath "/event".

(** The [color] property of the two links. *)
Record Tabs := { postListColor : string; eventListColor : string }.

Definition render (asPath : string) : Tabs :=
  {| postListColor :=
       if doesPostListSelected asPath
       then ALPACA_SALON_TEXT_COLOR else ALPACA_SALON_ACHROMATIC_COLOR;
     eventListColor :=
       if doesEventListSelected asPath
       then ALPACA_SALON_TEXT_COLOR else ALPACA_SALON_ACHROMATIC_COLOR |}.

End Render.

End NavigationLayout.

(** ** The comment composer of the post page ([src/pages/post/[id].tsx]) *)

Module PostDetailPage.

Record ParentComment := {
  id : string;
  nickname : string;
  parent_contents : string
}.

Record CreateCommentMutationVariables := {
  var_contents : string;
  var_postId : string;
  var_commentId : option string
}.

(** What the page asks of its collaborators, oldest call first. *)
Inductive Call :=
| createCommentMutation (variables : CreateCommentMutationVariables)
| toast_success (message : string)
| toastApolloError (error : string).

(** How a create-comment mutation settles: with data, whose
    [createComment] field is the new comment or null, or with an error. *)
Inductive MutationResult :=
| Completed (createComment : option string)
| Failed (error : string).

Record State := {
  parentComment : option ParentComment;
  contents : string;            (* the form value held by useForm *)
  error : option string;        (* formState.errors.contents *)
  inFlight : nat;               (* create-comment mutations not yet settled *)
  calls : list Call
}.

Definition initial : State :=
  {| parentComment := None; contents := EmptyString; error := None;
     inFlight := 0; calls := [] |}.



Section Page.

Variable postId : string.

Definition setParentComment (p : option ParentComment) (st : State) : State :=
  {| parentComment := p; contents := contents st; error := error st;
     inFlight := inFlight st; calls := calls st |}.

(** Typing in the textarea. *)
Definition onChange (text : string) (st : State) : State :=
  {| parentComment := parentComment st; contents := text; error := error st;
     inFlight := inFlight st; calls := calls st |}.

Definition variablesOf (text : string) (st : State)
  : CreateCommentMutationVariables :=
  {| var_contents := text; var_postId := postId;
     var_commentId :=
       match parentComment st with
       | Some p => Some (id p)
       | None => None
       end |}.

(** [createComment]: the mutation is started and, without waiting for it,
    the form is reset to its default values. *)
Definition createComment (text : string) (st : State) : State :=
  {| parentComment := parentComment st;
     contents := EmptyString;
     error := None;
     inFlight := S (inFlight st);
     calls := calls st ++ [createCommentMutation (variablesOf text st)] |}.

(** [handleSubmit(createComment)] with the [required] rule on contents. *)
Definition onSubmit (st : State) : State :=
  if String.eqb (contents st) EmptyString then
    {| parentComment := parentComment st; contents := contents st;
       error := Some "댓글을 입력해주세요";
       inFlight := inFlight st; calls := calls st |}
  else createComment (contents st) st.

(** [onCompleted] and [onError] of [useCreateCommentMutation]. *)
Definition onCompleted (createComment : option string) (st : State) : State :=
  match createComment with
  | Some _ =>
      {| parentComment := None; contents := contents st; error := error st;
         inFlight := inFlight st;
         calls := calls st ++ [toast_success "댓글을 작성했어요"] |}
  | None => st
  end.

Definition onError (e : string) (st : State) : State :=
  {| parentComment := parentComment st; contents := contents st;
     error := error st; inFlight := inFlight st;
     calls := calls st ++ [toastApolloError e] |}.

(** A mutation in flight settles. *)
Definition settle (r : MutationResult) (st : State) : State :=
  match inFlight st with
  | O => st
  | S n =>
      let st' :=
        {| parentComment := parentComment st; contents := contents st;
           error := error st; inFlight := n; calls := calls st |} in
      match r with
      | Completed data => onCompleted data st'
      | Failed e => onError e st'
      end
  end.

End Page.

End PostDetailPage.

(** ** The upload bundle: a [FormData], an ordered list of named entries *)

Module FormData.

Section Entries.

Variable V : Type.

Definition t := list (string * V).

Definition append (fd : t) (name : string) (value : V) : t :=
  fd ++ [(name, value)].

Definition delete (fd : t) (name : string) : t :=
  filter (fun e => negb (String.eqb (fst e) name)) fd.

Definition has (fd : t) (name : string) : bool :=
  existsb (fun e => String.eqb (fst e) name) fd.

Definition keys (fd : t) : list string := map fst fd.

End Entries.

Arguments append {V} fd name value.
Arguments delete {V} fd name.
Arguments has {V} fd name.
Arguments keys {V} fd.

End FormData.

(** ** The post update page ([src/pages/post/[id]/update.tsx]) *)

Module PostUpdatePage.

(** A selected file: its name and its MIME type. *)
Record File := { file_name : string; file_type : string }.

(** An element of [imageInfos]: a preview [{ id, url }] pushed by
    [createPreviewImages], or an element of [post.imageUrls] stored as it
    came from the query, which has no [id]. *)
Inductive ImageInfo :=
| Preview (id : N) (url : string)
| Fetched (imageUrl : string).

(** [imageInfo.id], undefined for a fetched URL. *)
Definition info_id (i : ImageInfo) : option N :=
  match i with
  | Preview id _ => Some id
  | Fetched _ => None
  end.

Record PostUpdateInput := { title : string; contents : string }.

(** [formState.errors]: the message of each field in error. *)
Record FieldErrors := {
  title_error : option string;
  contents_error : option string
}.

Record Post := {
  post_title : string;
  post_contents : string;
  post_imageUrls : option (list string)
}.

(** [{ input: { id, title, contents, imageUrls? } }] *)
Record UpdatePostMutationVariables := {
  input_id : string;
  input_title : string;
  input_contents : string;
  input_imageUrls : option (list string)
}.

(** What the page asks of its collaborators, oldest call first. *)
Inductive Call :=
| uploadImageFiles (body : FormData.t File)
| updatePostMutation (variables : UpdatePostMutationVariables)
| toast_success (message : string)
| toast_warn (message : option string)
| toastApolloError (error : string)
| router_back.

(** Where a call of [updatePost] is suspended. *)
Inductive Continuation :=
| AfterUpload (variables : UpdatePostMutationVariables)
| AfterMutation.

(** How an awaited promise settles.  The promise of the mutation is
    fulfilled in both cases, after the hook has called [onCompleted] or
    [onError]. *)
Inductive Settlement :=
| UploadFulfilled (imageUrls : list string)
| UploadRejected (reason : string)
| MutationCompleted (updatePost : option string)
| MutationFailed (error : string).

Record State := {
  imageInfos : list ImageInfo;
  isPostUpdateLoading : bool;
  formData : option (FormData.t File);   (* formData.current *)
  imageId : N;                           (* imageId.current *)
  values : PostUpdateInput;              (* the form values of useForm *)
  errors : FieldErrors;
  pending : list Continuation;           (* suspended calls of updatePost *)
  calls : list Call
}.

(** The state at mount; [formData.current] is null where the environment
    has no [FormData]. *)
Definition initial (hasFormData : bool) : State :=
  {| imageInfos := [];
     isPostUpdateLoading := false;
     formData := if hasFormData then Some [] else None;
     imageId := 0%N;
     values := {| title := EmptyString; contents := EmptyString |};
     errors := {| title_error := None; contents_error := None |};
     pending := [];
     calls := [] |}.

Definition setImageInfos (l : list ImageInfo) (st : State) : State :=
  {| imageInfos := l; isPostUpdateLoading := isPostUpdateLoading st;
     formData := formData st; imageId := imageId st; values := values st;
     errors := errors st; pending := pending st; calls := calls st |}.

Definition setIsPostUpdateLoading (b : bool) (st : State) : State :=
  {| imageInfos := imageInfos st; isPostUpdateLoading := b;
     formData := formData st; imageId := imageId st; values := values st;
     errors := errors st; pending := pending st; calls := calls st |}.

Definition setRefs (fd : option (FormData.t File)) (next : N) (st : State)
  : State :=
  {| imageInfos := imageInfos st; isPostUpdateLoading := isPostUpdateLoading st;
     formData := fd; imageId := next; values := values st;
     errors := errors st; pending := pending st; calls := calls st |}.

Definition setValues (v : PostUpdateInput) (st : State) : State :=
  {| imageInfos := imageInfos st; isPostUpdateLoading := isPostUpdateLoading st;
     formData := formData st; imageId := imageId st; values := v;
     errors := errors st; pending := pending st; calls := calls st |}.

Definition setErrors (e : FieldErrors) (st : State) : State :=
  {| imageInfos := imageInfos st; isPostUpdateLoading := isPostUpdateLoading st;
     formData := formData st; imageId := imageId st; values := values st;
     errors := e; pending := pending st; calls := calls st |}.

Definition setPending (p : list Continuation) (st : State) : State :=
  {| imageInfos := imageInfos st; isPostUpdateLoading := isPostUpdateLoading st;
     formData := formData st; imageId := imageId st; values := values st;
     errors := errors st; pending := p; calls := calls st |}.

Definition call (c : list Call) (st : State) : State :=
  {| imageInfos := imageInfos st; isPostUpdateLoading := isPostUpdateLoading st;
     formData := formData st; imageId := imageId st; values := values st;
     errors := errors st; pending := pending st; calls := calls st ++ c |}.


(** [`image${id}`] *)
Definition imageKey (id : N) : string := "image" ++ JS.numberToString id.

Definition isImage (file : File) : bool :=
  JS.startsWith (file_type file) "image/".

Section Page.

Variable postId : string.
Variable createObjectURL : File -> string.

(** The body of the loop of [createPreviewImages] over [newImageUrls],
    [formData.current] and [imageId.current]: the counter is incremented
    twice for each image. *)
Definition stageFile (acc : list ImageInfo * FormData.t File * N) (file : File)
  : list ImageInfo * FormData.t File * N :=
  let '(newImageUrls, fd, cur) := acc in
  if isImage file then
    (newImageUrls ++ [Preview cur (createObjectURL file)],
     FormData.append fd (imageKey cur) file,
     N.succ (N.succ cur))
  else acc.

Definition stageFiles (files : list File) (fd : FormData.t File) (cur : N)
  : list ImageInfo * FormData.t File * N :=
  fold_left stageFile files ([], fd, cur).

(** [e.target.files] is null or a list of files. *)
Definition createPreviewImages (files : option (list File)) (st : State)
  : State :=
  match files, formData st with
  | Some ((_ :: _) as files), Some fd =>
      let '(newImageUrls, fd', next) := stageFiles files fd (imageId st) in
      setImageInfos (imageInfos st ++ newImageUrls) (setRefs (Some fd') next st)
  | _, _ => st
  end.

(** [prev.id !== imageId] *)
Definition idDiffers (imageId : N) (prev : ImageInfo) : bool :=
  match info_id prev with
  | Some id => negb (N.eqb id imageId)
  | None => true
  end.

Definition deletePreviewImage (imageId : N) (st : State) : State :=
  match formData st with
  | Some fd =>
      setImageInfos (filter (idDiffers imageId) (imageInfos st))
        (setRefs (Some (FormData.delete fd (imageKey imageId)))
           (PostUpdatePage.imageId st) st)
  | None => st
  end.

(** [onCompleted] of [usePostQuery]. *)
Definition postQueryCompleted (post : option Post) (st : State) : State :=
  match post with
  | Some post =>
      let st' :=
        setValues {| title := post_title post; contents := post_contents post |}
          st in
      match post_imageUrls post with
      | Some urls => setImageInfos (map Fetched urls) st'
      | None => st'
      end
  | None => st
  end.

(** [onCompleted] and [onError] of [useUpdatePostMutation]. *)
Definition onCompleted (updatePost : option string) (st : State) : State :=
  match updatePost with
  | Some _ => call [toast_success "글을 수정했어요"; router_back] st
  | None => st
  end.

Definition onError (e : string) (st : State) : State :=
  call [toastApolloError e] st.

(** [updatePost] up to its first [await]. *)
Definition updatePost (input : PostUpdateInput) (st : State) : State :=
  let st := setIsPostUpdateLoading true st in
  let variables :=
    {| input_id := postId; input_title := title input;
       input_contents := contents input; input_imageUrls := None |} in
  match formData st with
  | Some fd =>
      if FormData.has fd "images" then
        setPending (pending st ++ [AfterUpload variables])
          (call [uploadImageFiles fd] st)
      else
        setPending (pending st ++ [AfterMutation])
          (call [updatePostMutation variables] st)
  | None =>
      setPending (pending st ++ [AfterMutation])
        (call [updatePostMutation variables] st)
  end.

(** [updatePost] from an [await] on: [None] where the settlement is not
    one of the awaited promise.  A rejected upload ends the call with the
    exception, and nothing after the [await] runs. *)
Definition resume (k : Continuation) (r : Settlement) (st : State)
  : option State :=
  match k, r with
  | AfterUpload variables, UploadFulfilled imageUrls =>
      let variables :=
        {| input_id := input_id variables;
           input_title := input_title variables;
           input_contents := input_contents variables;
           input_imageUrls := Some imageUrls |} in
      Some (setPending (pending st ++ [AfterMutation])
              (call [updatePostMutation variables] st))
  | AfterUpload _, UploadRejected _ => Some st
  | AfterMutation, MutationCompleted data =>
      Some (setIsPostUpdateLoading false (onCompleted data st))
  | AfterMutation, MutationFailed e =>
      Some (setIsPostUpdateLoading false (onError e st))
  | _, _ => None
  end.

Fixpoint removeNth {A} (n : nat) (l : list A) : list A :=
  match l, n with
  | [], _ => []
  | _ :: l, O => l
  | x :: l, S n => x :: removeNth n l
  end.

(** The promise awaited by the [n]-th suspended call settles. *)
Definition settle (n : nat) (r : Settlement) (st : State) : State :=
  match nth_error (pending st) n with
  | Some k =>
      match resume k r (setPending (removeNth n (pending st)) st) with
      | Some st' => st'
      | None => st
      end
  | None => st
  end.

(** The [required] rules registered for the two fields. *)
Definition validate (v : PostUpdateInput) : FieldErrors :=
  {| title_error :=
       if String.eqb (title v) EmptyString
       then Some "글 제목을 작성한 후 완료를 눌러주세요" else None;
     contents_error :=
       if String.eqb (contents v) EmptyString
       then Some "글 내용을 작성한 후 완료를 눌러주세요" else None |}.

Definition isSome {A} (o : option A) : bool :=
  match o with Some _ => true | None => false end.

Definition isEmpty (e : FieldErrors) : bool :=
  negb (isSome (title_error e)) && negb (isSome (contents_error e)).

(** The effect on [errors.contents] and [errors.title]. *)
Definition errorEffect (e : FieldErrors) : list Call :=
  if isSome (title_error e) || isSome (contents_error e) then
    [toast_warn (match title_error e with
                 | Some message => Some message
                 | None => contents_error e
                 end)]
  else [].

(** [handleSubmit(updatePost)], the [onSubmit] of the form: the fields are
    validated; with no error [updatePost] is called on the form values,
    otherwise the errors are stored and, being new objects, run the
    effect. *)
Definition onSubmit (st : State) : State :=
  let e := validate (values st) in
  if isEmpty e then updatePost (values st) (setErrors e st)
  else call (errorEffect e) (setErrors e st).

(** The [disabled] property of the submit button and of the two inputs
    and of the file input; [loading] is what [usePostQuery] returns. *)
Definition submitDisabled (loading : bool) (st : State) : bool :=
  loading || negb (isEmpty (errors st)) || isPostUpdateLoading st.

Definition inputDisabled (loading : bool) (st : State) : bool :=
  loading || isPostUpdateLoading st.

(** A click on the submit button: a disabled button submits nothing. *)
Definition clickSubmit (loading : bool) (st : State) : State :=
  if submitDisabled loading st then st else onSubmit st.

(** What can happen to a mounted page. *)
Inductive Action :=
| TitleTyped (text : string)
| ContentsTyped (text : string)
| PostQueryCompleted (post : option Post)
| FilesSelected (files : option (list File))
| DeleteClicked (imageId : N)
| FormSubmitted
| Settled (n : nat) (r : Settlement).

Definition step (st : State) (a : Action) : State :=
  match a with
  | TitleTyped text =>
      setValues {| title := text; contents := contents (values st) |} st
  | ContentsTyped text =>
      setValues {| title := title (values st); contents := text |} st
  | PostQueryCompleted post => postQueryCompleted post st
  | FilesSelected files => createPreviewImages files st
  | DeleteClicked imageId => deletePreviewImage imageId st
  | FormSubmitted => onSubmit st
  | Settled n r => settle n r st
  end.

Definition run (acts : list Action) (st : State) : State :=
  fold_left step acts st.

(** The ids [createPreviewImages] assigns, in the order of assignment. *)
Definition newIds (files : option (list File)) (st : State) : list N :=
  match files, formData st with
  | Some ((_ :: _) as files), Some fd =>
      let '(newImageUrls, _, _) := stageFiles files fd (imageId st) in
      flat_map (fun i => match info_id i with Some id => [id] | None => [] end)
        newImageUrls
  | _, _ => []
  end.

(** All ids assigned during a run, oldest first. *)
Fixpoint assignedIds (acts : list Action) (st : State) : list N :=
  match acts with
  | [] => []
  | a :: acts =>
      match a with
      | FilesSelected files => newIds files st
      | _ => []
      end ++ assignedIds acts (step st a)
  end.

(** The ids of the previews on display. *)
Definition previewIds (st : State) : list N :=
  flat_map (fun i => match info_id i with Some id => [id] | None => [] end)
    (imageInfos st).

Definition bundleKeys (st : State) : list string :=
  match formData st with
  | Some fd => FormData.keys fd
  | None => []
  end.

End Page.

End PostUpdatePage.

(** * Properties *)

(** ** Strings *)

Module JSFacts.

Lemma split_nonempty sep s : JS.split sep s <> [].
Proof.
  destruct s as [|c rest]; simpl; [discriminate|].
  destruct (Ascii.eqb c sep); [discriminate|].
  destruct (JS.split sep rest); discriminate.
Qed.

Lemma split_length sep s : length (JS.split sep s) = S (JS.occurrences sep s).
Proof.
  induction s as [|c rest IH]; simpl; [reflexivity|].
  destruct (Ascii.eqb c sep); simpl; [now rewrite IH|].
  destruct (JS.split sep rest) as [|seg segs] eqn:E.
  - now apply split_nonempty in E.
  - simpl in *. exact IH.
Qed.

Lemma numberToString_inj a b : JS.numberToString a = JS.numberToString b -> a = b.
Proof.
  unfold JS.numberToString. intros H.
  apply (f_equal NilEmpty.uint_of_string) in H.
  rewrite !NilEmpty.usu in H. injection H as H.
  apply (f_equal N.of_uint) in H.
  now rewrite !DecimalN.Unsigned.of_to in H.
Qed.

(** A decimal numeral is empty or starts with a digit; in particular it
    never starts with the letter s. *)
Lemma string_of_uint_not_s d rest :
  NilEmpty.string_of_uint d <> String "s" rest.
Proof. destruct d; simpl; discriminate. Qed.

Example split_empty : JS.split JS.LF EmptyString = [EmptyString].
Proof. reflexivity. Qed.

Example split_lines :
  JS.split JS.LF (String "a" (String JS.LF (String JS.LF "b")))
  = ["a"; EmptyString; "b"].
Proof. reflexivity. Qed.

Example numberToString_digits :
  map JS.numberToString [0%N; 7%N; 120%N] = ["0"; "7"; "120"].
Proof. reflexivity. Qed.

End JSFacts.

Lemma prefix_app p s :
  String.prefix p s = true <-> exists rest, s = (p ++ rest)%string.
Proof.
  revert s. induction p as [|c p IH]; intros s.
  - split; [intros _; now exists s | intros _; now destruct s].
  - destruct s as [|d s]; simpl.
    + split; [discriminate | intros [rest H]; discriminate H].
    + destruct (Ascii.ascii_dec c d) as [->|ne].
      * rewrite IH. split; intros [rest H]; exists rest;
          [now rewrite H | now injection H].
      * split; [discriminate | intros [rest H]; injection H as H1 _; congruence].
Qed.

(** ** Navigation tabs *)

Module NavigationLayoutFacts.
Import NavigationLayout.

(** C10. The post-list tab is selected exactly on the path "/", the event
    tab exactly on the paths that start with "/event", and no path selects
    both; the rendered colours are therefore never the text colour on both
    tabs through selection: [render] yields one of three pairs. *)
Theorem tabs_never_both_selected (text achromatic asPath : string) :
  (doesPostListSelected asPath = true <-> asPath = "/") /\
  (doesEventListSelected asPath = true <->
   exists rest, asPath = ("/event" ++ rest)%string) /\
  ~ (doesPostListSelected asPath = true /\
     doesEventListSelected asPath = true) /\
  (render text achromatic asPath
     = {| postListColor := text; eventListColor := achromatic |} \/
   render text achromatic asPath
     = {| postListColor := achromatic; eventListColor := text |} \/
   render text achromatic asPath
     = {| postListColor := achromatic; eventListColor := achromatic |}).
Proof.
  assert (P : doesPostListSelected asPath = true <-> asPath = "/")
    by apply String.eqb_eq.
  assert (E : doesEventListSelected asPath = true <->
              exists rest, asPath = ("/event" ++ rest)%string)
    by apply prefix_app.
  assert (X : ~ (doesPostListSelected asPath = true /\
                 doesEventListSelected asPath = true)).
  { intros [Hp He]. apply P in Hp. subst asPath. discriminate He. }
  split; [exact P|]. split; [exact E|]. split; [exact X|].
  unfold render.
  destruct (doesPostListSelected asPath), (doesEventListSelected asPath);
    auto.
  exfalso. now apply X.
Qed.

End NavigationLayoutFacts.

(** ** The comment composer *)

Module PostDetailPageFacts.
Import PostDetailPage.

Lemma onSubmit_nonempty postId st :
  contents st <> EmptyString ->
  onSubmit postId st = createComment postId (contents st) st.
Proof.
  intros H. unfold onSubmit.
  destruct (String.eqb_spec (contents st) EmptyString); [contradiction|reflexivity].
Qed.

(** A submit with empty contents is blocked: nothing is sent. *)
Lemma onSubmit_empty postId st :
  contents st = EmptyString ->
  calls (onSubmit postId st) = calls st /\
  parentComment (onSubmit postId st) = parentComment st /\
  inFlight (onSubmit postId st) = inFlight st.
Proof.
  intros H. unfold onSubmit. rewrite H. simpl. auto.
Qed.

(** C2, as the claim states the failure case: after a failed mutation the
    contents typed before the submit are gone. *)
Lemma composer_failure_clears_contents :
  let st := onChange "hi" initial in
  contents st = "hi" /\
  contents (settle (Failed "network error") (onSubmit "post-1" st))
    <> contents st.
Proof. simpl. split; [reflexivity | discriminate]. Qed.

(** C2, amended.  A submit with non-empty contents sends exactly one
    create-comment mutation whose variables hold the contents, the postId
    and the parent comment id exactly when a parent comment is set, and it
    resets the contents at once, before the mutation settles.  When the
    mutation completes with a comment, the parent comment is cleared and a
    success toast is shown; when it fails, the error is shown, the parent
    comment is kept and the contents stay reset. *)
Theorem composer_submit (postId : string) (st : State) :
  contents st <> EmptyString ->
  let st1 := onSubmit postId st in
  calls st1 =
    calls st ++
    [createCommentMutation
       {| var_contents := contents st; var_postId := postId;
          var_commentId := option_map id (parentComment st) |}] /\
  (option_map id (parentComment st) = None <-> parentComment st = None) /\
  contents st1 = EmptyString /\
  parentComment st1 = parentComment st /\
  (forall comment,
     let st2 := settle (Completed (Some comment)) st1 in
     contents st2 = EmptyString /\ parentComment st2 = None /\
     calls st2 = calls st1 ++ [toast_success "댓글을 작성했어요"]) /\
  (forall e,
     let st2 := settle (Failed e) st1 in
     contents st2 = EmptyString /\ parentComment st2 = parentComment st /\
     calls st2 = calls st1 ++ [toastApolloError e]).
Proof.
  intros H st1. subst st1. rewrite (onSubmit_nonempty postId st H).
  unfold createComment, variablesOf, settle; simpl.
  repeat split; try reflexivity.
  - now destruct (parentComment st).
  - intros ->. reflexivity.
Qed.

End PostDetailPageFacts.

(** The scenario of a reply: the payload carries the parent id, and the
    parent is cleared after success. *)
Example composer_reply_scenario :
  let parent :=
    {| PostDetailPage.id := "c7"; PostDetailPage.nickname := "alpaca";
       PostDetailPage.parent_contents := "hello" |} in
  let st :=
    PostDetailPage.onSubmit "post-1"
      (PostDetailPage.onChange "hi"
         (PostDetailPage.setParentComment (Some parent)
            PostDetailPage.initial)) in
  PostDetailPage.calls st =
    [PostDetailPage.createCommentMutation
       {| PostDetailPage.var_contents := "hi";
          PostDetailPage.var_postId := "post-1";
          PostDetailPage.var_commentId := Some "c7" |}] /\
  PostDetailPage.parentComment
    (PostDetailPage.settle (PostDetailPage.Completed (Some "c8")) st) = None.
Proof. split; reflexivity. Qed.

(** The witness of [composer_submit]. *)
Lemma composer_submit_witness :
  let st := PostDetailPage.onChange "hi" PostDetailPage.initial in
  PostDetailPage.contents st <> EmptyString /\
  PostDetailPage.contents (PostDetailPage.onSubmit "post-1" st) = EmptyString.
Proof.
  split; [discriminate|].
  apply (PostDetailPageFacts.composer_submit "post-1"
           (PostDetailPage.onChange "hi" PostDetailPage.initial)).
  discriminate.
Defined.

(** ** The upload bundle *)

Module FormDataFacts.
Import FormData.

Section Entries.

Context {V : Type}.
Implicit Types (fd : FormData.t V) (name : string).

Lemma keys_append fd name v : keys (append fd name v) = keys fd ++ [name].
Proof. unfold keys, append. now rewrite map_app. Qed.

Lemma keys_delete fd name :
  keys (delete fd name) = filter (fun k => negb (String.eqb k name)) (keys fd).
Proof.
  unfold keys, delete. induction fd as [|[k v] fd IH]; simpl; [reflexivity|].
  destruct (String.eqb k name); simpl; now rewrite IH.
Qed.

Lemma has_In fd name : has fd name = true <-> In name (keys fd).
Proof.
  unfold has, keys. rewrite existsb_exists, in_map_iff.
  split; intros [e [H1 H2]]; exists e.
  - apply String.eqb_eq in H2. auto.
  - split; [tauto|]. apply String.eqb_eq. tauto.
Qed.

Lemma delete_absent fd name : ~ In name (keys fd) -> delete fd name = fd.
Proof.
  unfold delete, keys. induction fd as [|[k v] fd IH]; simpl; [reflexivity|].
  intros H. destruct (String.eqb_spec k name) as [->|ne]; simpl.
  - exfalso. apply H. now left.
  - f_equal. apply IH. tauto.
Qed.

Lemma delete_removes fd name : ~ In name (keys (delete fd name)).
Proof.
  rewrite keys_delete, filter_In. intros [_ H].
  now rewrite String.eqb_refl in H.
Qed.

Lemma delete_idempotent fd name :
  delete (delete fd name) name = delete fd name.
Proof. apply delete_absent, delete_removes. Qed.

(** The entries under other names are kept, in their order. *)
Lemma delete_others fd name other :
  other <> name ->
  filter (fun e => String.eqb (fst e) other) (delete fd name)
  = filter (fun e => String.eqb (fst e) other) fd.
Proof.
  intros ne. unfold delete. induction fd as [|[k v] fd IH]; simpl; [reflexivity|].
  destruct (String.eqb_spec k name) as [->|ne']; simpl.
  - destruct (String.eqb_spec name other); [congruence | exact IH].
  - now rewrite IH.
Qed.

End Entries.

End FormDataFacts.

(** ** The staging store of the update page *)

Module PostUpdatePageFacts.
Import PostUpdatePage.

Lemma imageKey_inj a b : imageKey a = imageKey b -> a = b.
Proof.
  unfold imageKey. simpl. intros H. injection H as H.
  now apply JSFacts.numberToString_inj.
Qed.

(** No key of the form image<N> is the name "images". *)
Lemma imageKey_not_images id : imageKey id <> "images".
Proof.
  unfold imageKey, JS.numberToString. simpl. intros H. injection H as H.
  now apply JSFacts.string_of_uint_not_s in H.
Qed.

Definition idsOf (l : list ImageInfo) : list N :=
  flat_map (fun i => match info_id i with Some id => [id] | None => [] end) l.

Lemma idsOf_app l1 l2 : idsOf (l1 ++ l2) = idsOf l1 ++ idsOf l2.
Proof. apply flat_map_app. Qed.

Lemma idsOf_Fetched urls : idsOf (map Fetched urls) = [].
Proof. induction urls; simpl; auto. Qed.

Lemma idsOf_filter id l :
  idsOf (filter (idDiffers id) l)
  = filter (fun i => negb (N.eqb i id)) (idsOf l).
Proof.
  induction l as [|[i u|u] l IH]; simpl; [reflexivity| |exact IH].
  unfold idDiffers at 1. simpl.
  destruct (N.eqb i id); simpl; now rewrite IH.
Qed.

(** The images among the selected files with the ids the loop gives
    them, starting from the counter [cur]. *)
Fixpoint numbered (files : list File) (cur : N) : list (N * File) :=
  match files with
  | [] => []
  | file :: files =>
      if isImage file then (cur, file) :: numbered files (N.succ (N.succ cur))
      else numbered files cur
  end.

Lemma numbered_files files cur :
  map snd (numbered files cur) = filter isImage files.
Proof.
  revert cur. induction files as [|f files IH]; intros cur; simpl; [reflexivity|].
  destruct (isImage f); simpl; now rewrite IH.
Qed.

Lemma numbered_ge files cur :
  Forall (fun i => (cur <= i)%N) (map fst (numbered files cur)).
Proof.
  revert cur. induction files as [|f files IH]; intros cur; simpl; [constructor|].
  destruct (isImage f); simpl; [|apply IH].
  constructor; [lia|].
  eapply Forall_impl; [|apply IH]. simpl. intros; lia.
Qed.

Lemma numbered_lt files cur :
  Forall (fun i => (i < cur + 2 * N.of_nat (length (numbered files cur)))%N)
    (map fst (numbered files cur)).
Proof.
  revert cur.
  induction files as [|f files IH]; intros cur; cbn [numbered]; [constructor|].
  destruct (isImage f); [|apply IH].
  cbn [length map fst]. rewrite Nat2N.inj_succ. constructor; [lia|].
  eapply Forall_impl; [|apply IH]. cbn beta. intros; lia.
Qed.

Lemma numbered_sorted files cur :
  StronglySorted N.lt (map fst (numbered files cur)).
Proof.
  revert cur. induction files as [|f files IH]; intros cur; simpl; [constructor|].
  destruct (isImage f); simpl; [|apply IH].
  constructor; [apply IH|].
  eapply Forall_impl; [|apply numbered_ge]. simpl. intros; lia.
Qed.

Section Page.

Variable postId : string.
Variable createObjectURL : File -> string.

Definition previewOf (e : N * File) : ImageInfo :=
  Preview (fst e) (createObjectURL (snd e)).

Definition entryOf (e : N * File) : string * File :=
  (imageKey (fst e), snd e).

Lemma fold_stageFile files l fd cur :
  fold_left (stageFile createObjectURL) files (l, fd, cur)
  = (l ++ map previewOf (numbered files cur),
     fd ++ map entryOf (numbered files cur),
     (cur + 2 * N.of_nat (length (numbered files cur)))%N).
Proof.
  revert l fd cur.
  induction files as [|f files IH]; intros l fd cur;
    cbn [fold_left numbered stageFile].
  - cbn [map length]. rewrite !app_nil_r. f_equal. lia.
  - destruct (isImage f) eqn:E; [|apply IH].
    rewrite IH. unfold FormData.append. cbn [length map].
    rewrite Nat2N.inj_succ, <- !app_assoc. cbn [app].
    f_equal. lia.
Qed.

Lemma stageFiles_eq files fd cur :
  stageFiles createObjectURL files fd cur
  = (map previewOf (numbered files cur),
     fd ++ map entryOf (numbered files cur),
     (cur + 2 * N.of_nat (length (numbered files cur)))%N).
Proof. unfold stageFiles. now rewrite fold_stageFile. Qed.

Lemma idsOf_previews l : idsOf (map previewOf l) = map fst l.
Proof. induction l as [|e l IH]; simpl; [reflexivity | now rewrite IH]. Qed.

Lemma keys_entries l : FormData.keys (map entryOf l) = map imageKey (map fst l).
Proof. unfold FormData.keys. rewrite !map_map. reflexivity. Qed.

(** [createPreviewImages] on a page that has its bundle. *)
Lemma createPreviewImages_eq files st fd :
  formData st = Some fd ->
  createPreviewImages createObjectURL (Some files) st
  = setImageInfos
      (imageInfos st ++ map previewOf (numbered files (imageId st)))
      (setRefs (Some (fd ++ map entryOf (numbered files (imageId st))))
         (imageId st + 2 * N.of_nat (length (numbered files (imageId st))))%N
         st).
Proof.
  intros Hfd. unfold createPreviewImages. rewrite Hfd.
  destruct files as [|f files].
  - cbn [numbered map length]. rewrite !app_nil_r.
    destruct st; cbn in *. subst.
    unfold setImageInfos, setRefs; cbn. f_equal. lia.
  - rewrite stageFiles_eq. reflexivity.
Qed.

(** *** The invariant of the staging store *)

Definition keyBelow (n : N) (k : string) : Prop :=
  exists i, k = imageKey i /\ (i < n)%N.

(** Every preview id and every bundle key was given out by the counter,
    and none occurs twice. *)
Record wellStaged (st : State) : Prop := {
  keys_below : Forall (keyBelow (imageId st)) (bundleKeys st);
  ids_below : Forall (fun i => (i < imageId st)%N) (previewIds st);
  keys_nodup : NoDup (bundleKeys st);
  ids_nodup : NoDup (previewIds st)
}.

Definition staging (st : State)
  : list ImageInfo * option (FormData.t File) * N :=
  (imageInfos st, formData st, imageId st).

Lemma wellStaged_ext st st' :
  staging st' = staging st -> wellStaged st -> wellStaged st'.
Proof.
  unfold staging. intros E [H1 H2 H3 H4]. injection E as Ei Ef En.
  unfold bundleKeys, previewIds in *.
  split; unfold bundleKeys, previewIds; rewrite ?Ei, ?Ef, ?En; assumption.
Qed.

Lemma staging_updatePost input st :
  staging (updatePost postId input st) = staging st.
Proof.
  unfold updatePost. simpl.
  destruct (formData st) as [fd|]; [destruct (FormData.has fd "images")|];
    reflexivity.
Qed.

Lemma staging_onSubmit st : staging (onSubmit postId st) = staging st.
Proof.
  unfold onSubmit. destruct (isEmpty (validate (values st))); [|reflexivity].
  now rewrite staging_updatePost.
Qed.

Lemma staging_resume k r st st' :
  resume k r st = Some st' -> staging st' = staging st.
Proof.
  destruct k as [v|], r as [urls|reason|[post|]|e]; simpl; intros H;
    try discriminate; injection H as <-; reflexivity.
Qed.

Lemma staging_settle n r st : staging (settle n r st) = staging st.
Proof.
  unfold settle. destruct (nth_error (pending st) n) as [k|]; [|reflexivity].
  destruct (resume k r _) as [st'|] eqn:E; [|reflexivity].
  now apply staging_resume in E.
Qed.

Lemma sorted_NoDup l : StronglySorted N.lt l -> NoDup l.
Proof.
  induction 1 as [|a l S IH F]; constructor; [|exact IH].
  intros Hin. rewrite Forall_forall in F. specialize (F a Hin). lia.
Qed.

Lemma sorted_app l1 l2 :
  StronglySorted N.lt l1 -> StronglySorted N.lt l2 ->
  (forall a b, In a l1 -> In b l2 -> (a < b)%N) ->
  StronglySorted N.lt (l1 ++ l2).
Proof.
  intros S1 S2 H. induction S1 as [|a l1 S1 IH F]; simpl; [exact S2|].
  constructor.
  - apply IH. intros x y Hx Hy. apply H; [now right | exact Hy].
  - apply Forall_app. split; [exact F|].
    apply Forall_forall. intros y Hy. apply H; [now left | exact Hy].
Qed.

Lemma NoDup_imageKeys l : NoDup l -> NoDup (map imageKey l).
Proof.
  induction 1 as [|a l Hn Hl IH]; simpl; constructor; [|exact IH].
  rewrite in_map_iff. intros [b [E Hb]]. apply imageKey_inj in E. now subst.
Qed.

Lemma wellStaged_initial b : wellStaged (initial b).
Proof. destruct b; split; simpl; constructor. Qed.

Lemma wellStaged_createPreviewImages files st :
  wellStaged st -> wellStaged (createPreviewImages createObjectURL files st).
Proof.
  intros W. destruct files as [files|]; [|exact W].
  destruct (formData st) as [fd|] eqn:Hfd.
  2:{ unfold createPreviewImages. rewrite Hfd. now destruct files. }
  rewrite (createPreviewImages_eq files st fd Hfd).
  destruct W as [H1 H2 H3 H4]. unfold bundleKeys, previewIds in *.
  rewrite Hfd in *.
  set (new := numbered files (imageId st)).
  assert (G := numbered_ge files (imageId st)).
  assert (L := numbered_lt files (imageId st)).
  assert (S := numbered_sorted files (imageId st)).
  fold new in G, L, S. rewrite Forall_forall in G, L, H1, H2.
  split; unfold bundleKeys, previewIds; cbn [imageInfos formData imageId setImageInfos setRefs].
  - unfold FormData.keys. rewrite map_app. fold (FormData.keys fd).
    fold (FormData.keys (map entryOf new)). rewrite keys_entries.
    apply Forall_app. split; apply Forall_forall.
    + intros k Hk. destruct (H1 k Hk) as [i [-> Hi]]. exists i. split; [reflexivity|lia].
    + intros k Hk. apply in_map_iff in Hk. destruct Hk as [i [<- Hi]].
      exists i. split; [reflexivity | now apply L].
  - fold (idsOf (imageInfos st ++ map previewOf new)).
    rewrite idsOf_app, idsOf_previews. apply Forall_app. split; apply Forall_forall.
    + intros i Hi. specialize (H2 i Hi). lia.
    + intros i Hi. now apply L.
  - unfold FormData.keys. rewrite map_app. fold (FormData.keys fd).
    fold (FormData.keys (map entryOf new)). rewrite keys_entries.
    apply NoDup_app; [exact H3 | apply NoDup_imageKeys, sorted_NoDup, S |].
    intros k Hk Hk'. destruct (H1 k Hk) as [i [-> Hi]].
    apply in_map_iff in Hk'. destruct Hk' as [j [E Hj]].
    apply imageKey_inj in E. subst j. specialize (G i Hj). lia.
  - fold (idsOf (imageInfos st ++ map previewOf new)).
    rewrite idsOf_app, idsOf_previews.
    apply NoDup_app; [exact H4 | apply sorted_NoDup, S |].
    intros i Hi Hi'. specialize (H2 i Hi). specialize (G i Hi'). lia.
Qed.

Lemma wellStaged_deletePreviewImage id st :
  wellStaged st -> wellStaged (deletePreviewImage id st).
Proof.
  intros W. unfold deletePreviewImage.
  destruct (formData st) as [fd|] eqn:Hfd; [|exact W].
  destruct W as [H1 H2 H3 H4]. unfold bundleKeys, previewIds in *.
  rewrite Hfd in *.
  split; unfold bundleKeys, previewIds; cbn [imageInfos formData imageId setImageInfos setRefs].
  - rewrite FormDataFacts.keys_delete.
    eapply incl_Forall; [apply incl_filter | exact H1].
  - fold (idsOf (filter (idDiffers id) (imageInfos st))).
    rewrite idsOf_filter.
    eapply incl_Forall; [apply incl_filter | exact H2].
  - rewrite FormDataFacts.keys_delete. now apply NoDup_filter.
  - fold (idsOf (filter (idDiffers id) (imageInfos st))).
    rewrite idsOf_filter. now apply NoDup_filter.
Qed.

Lemma wellStaged_postQueryCompleted post st :
  wellStaged st -> wellStaged (postQueryCompleted post st).
Proof.
  intros W. destruct post as [post|]; [|exact W]. unfold postQueryCompleted.
  destruct (post_imageUrls post) as [urls|].
  - destruct W as [H1 H2 H3 H4].
    split; unfold bundleKeys, previewIds in *; cbn [imageInfos formData imageId setImageInfos setValues];
      try assumption.
    + fold (idsOf (map Fetched urls)). rewrite idsOf_Fetched. constructor.
    + fold (idsOf (map Fetched urls)). rewrite idsOf_Fetched. constructor.
  - eapply wellStaged_ext; [|exact W]. reflexivity.
Qed.

Lemma wellStaged_step st a : wellStaged st -> wellStaged (step postId createObjectURL st a).
Proof.
  intros W. destruct a; simpl.
  - eapply wellStaged_ext; [|exact W]; reflexivity.
  - eapply wellStaged_ext; [|exact W]; reflexivity.
  - now apply wellStaged_postQueryCompleted.
  - now apply wellStaged_createPreviewImages.
  - now apply wellStaged_deletePreviewImage.
  - eapply wellStaged_ext; [apply staging_onSubmit | exact W].
  - eapply wellStaged_ext; [apply staging_settle | exact W].
Qed.

Lemma wellStaged_run acts st :
  wellStaged st -> wellStaged (run postId createObjectURL acts st).
Proof.
  revert st. induction acts as [|a acts IH]; intros st W; simpl; [exact W|].
  apply IH. now apply wellStaged_step.
Qed.

(** The bundle of a page is never dropped: [formData.current] is written
    by no handler, only the bundle it points to is. *)
Lemma bundle_persists_step a st :
  formData st <> None -> formData (step postId createObjectURL st a) <> None.
Proof.
  intros H. destruct (formData st) as [fd|] eqn:Hfd; [clear H|contradiction].
  destruct a as [text|text|post|files|id| |n r]; cbn [step].
  - simpl. now rewrite Hfd.
  - simpl. now rewrite Hfd.
  - destruct post as [post|]; [|simpl; now rewrite Hfd].
    unfold postQueryCompleted.
    destruct (post_imageUrls post); simpl; now rewrite Hfd.
  - destruct files as [files|]; [|simpl; now rewrite Hfd].
    now rewrite (createPreviewImages_eq files st fd Hfd).
  - unfold deletePreviewImage. now rewrite Hfd.
  - assert (E := f_equal (fun s => snd (fst s)) (staging_onSubmit st)).
    simpl in E. now rewrite E, Hfd.
  - assert (E := f_equal (fun s => snd (fst s)) (staging_settle n r st)).
    simpl in E. now rewrite E, Hfd.
Qed.

Lemma bundle_persists acts :
  formData (run postId createObjectURL acts (initial true)) <> None.
Proof.
  assert (G : forall st, formData st <> None ->
                formData (run postId createObjectURL acts st) <> None).
  { induction acts as [|a acts IH]; intros st H; [exact H|].
    apply IH. now apply bundle_persists_step. }
  apply G. discriminate.
Qed.

(** A well staged bundle has no entry named "images". *)
Lemma wellStaged_no_images st fd :
  wellStaged st -> formData st = Some fd -> FormData.has fd "images" = false.
Proof.
  intros [H1 _ _ _] Hfd. unfold bundleKeys in H1. rewrite Hfd in H1.
  destruct (FormData.has fd "images") eqn:E; [|reflexivity].
  apply FormDataFacts.has_In in E. rewrite Forall_forall in H1.
  destruct (H1 _ E) as [i [Hi _]]. symmetry in Hi.
  now apply imageKey_not_images in Hi.
Qed.

(** *** Staging *)

(** Several selections in turn. *)
Definition selectAll (selections : list (option (list File))) (st : State)
  : State :=
  fold_left (fun st files => createPreviewImages createObjectURL files st)
    selections st.

Definition selectedFiles (selections : list (option (list File)))
  : list File :=
  flat_map (fun files => match files with Some l => l | None => [] end)
    selections.

Lemma selectAll_eq selections : forall st fd,
  formData st = Some fd ->
  exists new,
    imageInfos (selectAll selections st) = imageInfos st ++ map previewOf new /\
    formData (selectAll selections st) = Some (fd ++ map entryOf new) /\
    map snd new = filter isImage (selectedFiles selections).
Proof.
  induction selections as [|files selections IH]; intros st fd Hfd.
  - exists []. simpl. now rewrite !app_nil_r.
  - change (selectAll (files :: selections) st)
      with (selectAll selections (createPreviewImages createObjectURL files st)).
    destruct files as [files|].
    + rewrite (createPreviewImages_eq files st fd Hfd).
      remember (numbered files (imageId st)) as new eqn:Hnew.
      match goal with
      | |- context [selectAll selections ?s] =>
          destruct (IH s (fd ++ map entryOf new) eq_refl) as [new' [H1 [H2 H3]]]
      end.
      exists (new ++ new'). rewrite H1, H2.
      cbn [imageInfos setImageInfos selectedFiles flat_map].
      rewrite !map_app, <- !app_assoc, filter_app, H3.
      rewrite Hnew, numbered_files. auto.
    + destruct (IH st fd Hfd) as [new [H1 [H2 H3]]].
      exists new. auto.
Qed.

(** C4. On a page that has its bundle, after any sequence of selections
    the previews and the bundle have grown by exactly the image files of
    the selections, in order: one preview and one bundle entry for each
    file whose type starts with image/, none for the other files, which
    are passed over; an empty selection, or none, changes nothing. *)
Theorem staging_keeps_exactly_the_images
  (st : State) (fd : FormData.t File)
  (selections : list (option (list File))) :
  formData st = Some fd ->
  let st' := selectAll selections st in
  let images := filter isImage (selectedFiles selections) in
  (exists new,
     imageInfos st' = imageInfos st ++ map previewOf new /\
     formData st' = Some (fd ++ map entryOf new) /\
     map snd new = images) /\
  length (imageInfos st') = length (imageInfos st) + length images /\
  length (bundleKeys st') = length (bundleKeys st) + length images /\
  Forall (fun file => JS.startsWith (file_type file) "image/" = true) images /\
  createPreviewImages createObjectURL (Some []) st = st /\
  createPreviewImages createObjectURL None st = st.
Proof.
  intros Hfd st' images.
  destruct (selectAll_eq selections st fd Hfd) as [new [H1 [H2 H3]]].
  fold st' in H1, H2. fold images in H3.
  assert (L : length new = length images)
    by (rewrite <- H3; now rewrite length_map).
  split; [now exists new|].
  split; [rewrite H1, length_app, length_map; lia|].
  split.
  { unfold bundleKeys. rewrite H2, Hfd. unfold FormData.keys.
    rewrite !length_map, length_app, length_map. lia. }
  split.
  { apply Forall_forall. intros f Hf. apply filter_In in Hf. apply Hf. }
  split; reflexivity.
Qed.

(** *** Unstaging *)

Lemma filter_idDiffers_absent id l :
  ~ In id (idsOf l) -> filter (idDiffers id) l = l.
Proof.
  induction l as [|[i u|u] l IH]; simpl; intros H; [reflexivity| |].
  - unfold idDiffers at 1. simpl.
    destruct (N.eqb_spec i id) as [->|ne]; simpl.
    + exfalso. apply H. now left.
    + f_equal. apply IH. tauto.
  - f_equal. now apply IH.
Qed.

Lemma setStaging_same st :
  setImageInfos (imageInfos st) (setRefs (formData st) (imageId st) st) = st.
Proof. now destruct st. Qed.

(** C6. [deletePreviewImage] either removes the entries of the id from
    the previews and from the bundle together, or (on a page without a
    bundle) does nothing at all; every entry of another id stays, the rest
    of the state is untouched, an id that is not staged leaves the state
    as it is, and a second removal of the same id changes nothing. *)
Theorem unstage_removes_both_or_neither (st : State) (id : N) :
  let st' := deletePreviewImage id st in
  ((exists fd,
      formData st = Some fd /\
      formData st' = Some (FormData.delete fd (imageKey id)) /\
      imageInfos st' = filter (idDiffers id) (imageInfos st) /\
      ~ In id (previewIds st') /\ ~ In (imageKey id) (bundleKeys st'))
   \/ (formData st = None /\ st' = st)) /\
  (forall info, info_id info <> Some id ->
     (In info (imageInfos st') <-> In info (imageInfos st))) /\
  (forall other, other <> id ->
     (In (imageKey other) (bundleKeys st')
      <-> In (imageKey other) (bundleKeys st))) /\
  (imageId st' = imageId st /\ values st' = values st /\
   isPostUpdateLoading st' = isPostUpdateLoading st /\
   pending st' = pending st /\ calls st' = calls st) /\
  (~ In id (previewIds st) -> ~ In (imageKey id) (bundleKeys st) ->
   st' = st) /\
  deletePreviewImage id st' = st'.
Proof.
  intros st'.
  destruct (formData st) as [fd|] eqn:Hfd.
  2:{ assert (E : st' = st)
        by (subst st'; unfold deletePreviewImage; now rewrite Hfd).
      clearbody st'. subst st'.
      split; [right; auto|]. split; [tauto|]. split; [tauto|].
      split; [repeat split|]. split; [auto|].
      unfold deletePreviewImage. now rewrite Hfd. }
  assert (E : st' =
              setImageInfos (filter (idDiffers id) (imageInfos st))
                (setRefs (Some (FormData.delete fd (imageKey id)))
                   (imageId st) st))
    by (subst st'; unfold deletePreviewImage; now rewrite Hfd).
  clearbody st'.
  assert (P : previewIds st' = filter (fun i => negb (N.eqb i id)) (previewIds st))
    by (rewrite E; apply idsOf_filter).
  assert (K : bundleKeys st'
              = filter (fun k => negb (String.eqb k (imageKey id))) (bundleKeys st)).
  { rewrite E. unfold bundleKeys. rewrite Hfd. simpl.
    apply FormDataFacts.keys_delete. }
  split.
  { left. exists fd. split; [reflexivity|].
    split; [now rewrite E|]. split; [now rewrite E|]. split.
    - rewrite P, filter_In, N.eqb_refl. intros [_ H]. discriminate H.
    - rewrite K, filter_In, String.eqb_refl. intros [_ H]. discriminate H. }
  split.
  { intros info Hne. rewrite E. cbn [imageInfos setImageInfos].
    rewrite filter_In. split; [tauto|]. intros H. split; [exact H|].
    unfold idDiffers. destruct (info_id info) as [i|]; [|reflexivity].
    destruct (N.eqb_spec i id); [congruence | reflexivity]. }
  split.
  { intros other Hne. rewrite K, filter_In. split; [tauto|].
    intros H. split; [exact H|].
    destruct (String.eqb_spec (imageKey other) (imageKey id)) as [Ek|];
      [|reflexivity].
    apply imageKey_inj in Ek. contradiction. }
  split; [rewrite E; repeat split|].
  split.
  { intros Hp Hk. rewrite E.
    rewrite (filter_idDiffers_absent id (imageInfos st) Hp).
    rewrite FormDataFacts.delete_absent
      by (unfold bundleKeys in Hk; now rewrite Hfd in Hk).
    rewrite <- Hfd. apply setStaging_same. }
  rewrite E. unfold deletePreviewImage.
  cbn [formData imageInfos imageId setImageInfos setRefs].
  rewrite FormDataFacts.delete_idempotent.
  rewrite (filter_idDiffers_absent id (filter (idDiffers id) (imageInfos st))).
  - reflexivity.
  - rewrite idsOf_filter, filter_In, N.eqb_refl. intros [_ H]. discriminate H.
Qed.

(** *** Fresh ids *)

Local Abbreviation step' := (step postId createObjectURL).
Local Abbreviation run' := (run postId createObjectURL).
Local Abbreviation assignedIds' := (assignedIds postId createObjectURL).

Definition assignedBy (a : Action) (st : State) : list N :=
  match a with
  | FilesSelected files => newIds createObjectURL files st
  | _ => []
  end.

Lemma assignedIds_cons a acts st :
  assignedIds' (a :: acts) st = assignedBy a st ++ assignedIds' acts (step' st a).
Proof. now destruct a. Qed.

Lemma newIds_eq files st fd :
  formData st = Some fd ->
  newIds createObjectURL (Some files) st
  = map fst (numbered files (imageId st)).
Proof.
  intros Hfd. unfold newIds. rewrite Hfd. destruct files as [|f files].
  - reflexivity.
  - rewrite stageFiles_eq. apply idsOf_previews.
Qed.

Lemma newIds_no_bundle files st :
  formData st = None -> newIds createObjectURL files st = [].
Proof.
  intros Hfd. unfold newIds. rewrite Hfd.
  destruct files as [[|f files]|]; reflexivity.
Qed.

(** What a step does to the staging store: the ids it assigns are sorted
    and lie between the counter before and the counter after; the previews
    and the keys afterwards are old ones or newly assigned ones. *)
Lemma step_staging a st :
  (imageId st <= imageId (step' st a))%N /\
  StronglySorted N.lt (assignedBy a st) /\
  Forall (fun i => (imageId st <= i < imageId (step' st a))%N)
    (assignedBy a st) /\
  incl (previewIds (step' st a)) (previewIds st ++ assignedBy a st) /\
  incl (bundleKeys (step' st a))
    (bundleKeys st ++ map imageKey (assignedBy a st)).
Proof.
  assert (Same : forall st', staging st' = staging st ->
            (imageId st <= imageId st')%N /\
            StronglySorted N.lt [] /\
            Forall (fun i => (imageId st <= i < imageId st')%N) [] /\
            incl (previewIds st') (previewIds st ++ []) /\
            incl (bundleKeys st') (bundleKeys st ++ map imageKey [])).
  { intros st' E. unfold staging in E. injection E as Ei Ef En.
    unfold previewIds, bundleKeys. rewrite Ei, Ef, En. simpl.
    rewrite !app_nil_r.
    repeat split; try constructor; try apply incl_refl; lia. }
  destruct a as [text|text|post|files|id| |n r]; cbn [step assignedBy].
  - now apply Same.
  - now apply Same.
  - destruct post as [post|]; [|now apply Same]. unfold postQueryCompleted.
    destruct (post_imageUrls post) as [urls|]; [|now apply Same].
    unfold previewIds, bundleKeys. cbn [imageInfos formData imageId setImageInfos setValues].
    fold (idsOf (map Fetched urls)). rewrite idsOf_Fetched, !app_nil_r.
    repeat split; try constructor; try apply incl_refl; try lia.
    intros x [].
  - destruct files as [files|];
      [|unfold newIds; simpl; now apply Same].
    destruct (formData st) as [fd|] eqn:Hfd.
    2:{ rewrite newIds_no_bundle by exact Hfd.
        apply Same. unfold createPreviewImages. rewrite Hfd.
        now destruct files. }
    rewrite (newIds_eq files st fd Hfd).
    rewrite (createPreviewImages_eq files st fd Hfd).
    unfold previewIds, bundleKeys.
    cbn [imageInfos formData imageId setImageInfos setRefs]. rewrite Hfd.
    fold (idsOf (imageInfos st ++ map previewOf (numbered files (imageId st)))).
    fold (idsOf (imageInfos st)).
    rewrite idsOf_app, idsOf_previews.
    unfold FormData.keys at 1. rewrite map_app.
    fold (FormData.keys fd).
    fold (FormData.keys (map entryOf (numbered files (imageId st)))).
    rewrite keys_entries.
    split; [lia|]. split; [apply numbered_sorted|].
    split; [|split; apply incl_refl].
    assert (G := numbered_ge files (imageId st)).
    assert (L := numbered_lt files (imageId st)).
    rewrite Forall_forall in *. intros i Hi.
    specialize (G i Hi). specialize (L i Hi). cbn beta in *. lia.
  - unfold deletePreviewImage.
    destruct (formData st) as [fd|] eqn:Hfd; [|now apply Same].
    unfold previewIds, bundleKeys.
    cbn [imageInfos formData imageId setImageInfos setRefs]. rewrite Hfd.
    fold (idsOf (filter (idDiffers id) (imageInfos st))).
    rewrite idsOf_filter, FormDataFacts.keys_delete, !app_nil_r.
    repeat split; try constructor; try apply incl_filter; lia.
  - apply Same, staging_onSubmit.
  - apply Same, staging_settle.
Qed.

Lemma assignedIds_sorted acts : forall st,
  StronglySorted N.lt (assignedIds' acts st) /\
  Forall (fun i => (imageId st <= i)%N) (assignedIds' acts st).
Proof.
  induction acts as [|a acts IH]; intros st.
  - split; constructor.
  - rewrite assignedIds_cons.
    destruct (step_staging a st) as [Hle [Hs [Hb _]]].
    destruct (IH (step' st a)) as [IHs IHb].
    rewrite Forall_forall in Hb, IHb. split.
    + apply sorted_app; [exact Hs | exact IHs |].
      intros x y Hx Hy. specialize (Hb x Hx). specialize (IHb y Hy).
      cbn beta in *. lia.
    + apply Forall_app. split; apply Forall_forall; intros i Hi.
      * specialize (Hb i Hi). cbn beta in Hb. lia.
      * specialize (IHb i Hi). cbn beta in IHb. lia.
Qed.

Lemma run_assigned acts : forall st,
  incl (previewIds (run' acts st)) (previewIds st ++ assignedIds' acts st) /\
  incl (bundleKeys (run' acts st))
    (bundleKeys st ++ map imageKey (assignedIds' acts st)).
Proof.
  induction acts as [|a acts IH]; intros st.
  - simpl. rewrite !app_nil_r. split; apply incl_refl.
  - rewrite assignedIds_cons.
    change (run' (a :: acts) st) with (run' acts (step' st a)).
    destruct (step_staging a st) as [_ [_ [_ [Hp Hk]]]].
    destruct (IH (step' st a)) as [IHp IHk].
    rewrite map_app, !app_assoc. split.
    + eapply incl_tran; [exact IHp|].
      apply incl_app; [apply incl_appl, Hp | apply incl_appr, incl_refl].
    + eapply incl_tran; [exact IHk|].
      apply incl_app; [apply incl_appl, Hk | apply incl_appr, incl_refl].
Qed.

(** C7. In a session, whatever is done on the page, the ids that the
    selections assign, taken in the order of assignment, are strictly
    increasing: each is greater than every id assigned before it, whether
    or not that one has been removed since.  The ids of the previews on
    display and the keys of the bundle are among the assigned ones and are
    without repetition. *)
Theorem localIds_are_fresh (hasFormData : bool) (acts : list Action) :
  let st := run' acts (initial hasFormData) in
  let assigned := assignedIds' acts (initial hasFormData) in
  StronglySorted N.lt assigned /\
  incl (previewIds st) assigned /\
  incl (bundleKeys st) (map imageKey assigned) /\
  NoDup (previewIds st) /\
  NoDup (bundleKeys st).
Proof.
  intros st assigned.
  destruct (run_assigned acts (initial hasFormData)) as [Hp Hk].
  assert (W : wellStaged st) by apply wellStaged_run, wellStaged_initial.
  split; [apply assignedIds_sorted|].
  split; [exact Hp|]. split; [|split; apply W].
  now destruct hasFormData.
Qed.

(** *** Submission *)

Definition variablesOf (input : PostUpdateInput) : UpdatePostMutationVariables :=
  {| input_id := postId; input_title := title input;
     input_contents := contents input; input_imageUrls := None |}.

Definition isUpload (c : Call) : bool :=
  match c with uploadImageFiles _ => true | _ => false end.

Definition isMutation (c : Call) : bool :=
  match c with updatePostMutation _ => true | _ => false end.

Definition isFailure (r : Settlement) : bool :=
  match r with
  | UploadRejected _ | MutationFailed _ => true
  | _ => false
  end.

Definition valid (input : PostUpdateInput) : Prop :=
  title input <> EmptyString /\ contents input <> EmptyString.

Lemma validate_valid input : valid input -> isEmpty (validate input) = true.
Proof.
  intros [Ht Hc]. unfold isEmpty, validate. simpl.
  destruct (String.eqb_spec (title input) EmptyString); [contradiction|].
  destruct (String.eqb_spec (contents input) EmptyString); [contradiction|].
  reflexivity.
Qed.

(** On a well staged page [updatePost] goes straight to the mutation,
    without image URLs. *)
Lemma updatePost_wellStaged input st :
  wellStaged st ->
  updatePost postId input st
  = setPending (pending st ++ [AfterMutation])
      (call [updatePostMutation (variablesOf input)]
         (setIsPostUpdateLoading true st)).
Proof.
  intros W. unfold updatePost.
  cbn [formData setIsPostUpdateLoading].
  destruct (formData st) as [fd|] eqn:Hfd; [|reflexivity].
  now rewrite (wellStaged_no_images st fd W Hfd).
Qed.

Lemma onSubmit_valid st :
  wellStaged st -> valid (values st) ->
  onSubmit postId st
  = setPending (pending st ++ [AfterMutation])
      (call [updatePostMutation (variablesOf (values st))]
         (setIsPostUpdateLoading true
            (setErrors (validate (values st)) st))).
Proof.
  intros W V. unfold onSubmit. rewrite (validate_valid _ V).
  rewrite updatePost_wellStaged; [reflexivity|].
  eapply wellStaged_ext; [|exact W]. reflexivity.
Qed.

Lemma removeNth_last {A} (l : list A) x : removeNth (length l) (l ++ [x]) = l.
Proof. induction l as [|a l IH]; simpl; [reflexivity | now rewrite IH]. Qed.

Lemma nth_error_last {A} (l : list A) x :
  nth_error (l ++ [x]) (length l) = Some x.
Proof. induction l as [|a l IH]; simpl; [reflexivity | exact IH]. Qed.

Definition noUpload (st : State) : Prop :=
  Forall (fun c => isUpload c = false) (calls st).

Lemma noUpload_step a st :
  wellStaged st -> noUpload st -> noUpload (step' st a).
Proof.
  unfold noUpload. intros W H.
  destruct a as [text|text|post|files|id| |n r]; cbn [step]; try exact H.
  - destruct post as [post|]; [|exact H]. unfold postQueryCompleted.
    now destruct (post_imageUrls post).
  - unfold createPreviewImages.
    destruct files as [[|f files]|]; try exact H.
    destruct (formData st); [|exact H].
    now destruct (stageFiles _ _ _ _) as [[l fd'] next].
  - unfold deletePreviewImage. now destruct (formData st).
  - unfold onSubmit. destruct (isEmpty (validate (values st))) eqn:E.
    + rewrite updatePost_wellStaged
        by (eapply wellStaged_ext; [|exact W]; reflexivity).
      cbn [calls setPending call setIsPostUpdateLoading setErrors].
      apply Forall_app. split; [exact H|]. now repeat constructor.
    + cbn [calls call setErrors]. apply Forall_app. split; [exact H|].
      unfold errorEffect. destruct (_ || _); now repeat constructor.
  - unfold settle. destruct (nth_error (pending st) n) as [k|]; [|exact H].
    destruct k as [v|], r as [urls|reason|[post|]|e]; cbn; try exact H;
      apply Forall_app; (split; [exact H|]); now repeat constructor.
Qed.

Lemma noUpload_run acts : forall st,
  wellStaged st -> noUpload st -> noUpload (run' acts st).
Proof.
  induction acts as [|a acts IH]; intros st W H; [exact H|].
  apply IH; [now apply wellStaged_step | now apply noUpload_step].
Qed.

(** C1, what the code does.  Whatever has been staged, the bundle never
    has an entry named "images", the name [updatePost] asks for: no
    session ever calls the upload collaborator, and a submission calls the
    mutation at once with variables that carry no image URLs. *)
Theorem upload_is_never_invoked
  (hasFormData : bool) (acts : list Action) (input : PostUpdateInput) :
  let st := run' acts (initial hasFormData) in
  (forall fd, formData st = Some fd -> FormData.has fd "images" = false) /\
  Forall (fun c => isUpload c = false) (calls st) /\
  calls (updatePost postId input st)
  = calls st ++
    [updatePostMutation
       {| input_id := postId; input_title := title input;
          input_contents := contents input; input_imageUrls := None |}].
Proof.
  intros st.
  assert (W : wellStaged st) by apply wellStaged_run, wellStaged_initial.
  split; [intros fd; now apply wellStaged_no_images|].
  split.
  - apply noUpload_run; [apply wellStaged_initial | constructor].
  - now rewrite updatePost_wellStaged.
Qed.

(** A submission that the mutation fails.  In a session, a submission of
    valid form values is suspended on the mutation, the upload not being
    called; the only failure that settles it is the mutation's, and then
    the loading flag is cleared, that error is shown with
    [toastApolloError], and the previews, the bundle, the counter, the
    form values and the other suspended calls are as before the
    submission, so that submitting again sends the same variables. *)
Lemma failed_submission_keeps_the_form
  (hasFormData : bool) (acts : list Action) (r : Settlement) :
  let st := run' acts (initial hasFormData) in
  valid (values st) ->
  isFailure r = true ->
  let n := length (pending st) in
  let st1 := onSubmit postId st in
  forall k st2,
    nth_error (pending st1) n = Some k ->
    resume k r (setPending (removeNth n (pending st1)) st1) = Some st2 ->
    k = AfterMutation /\
    Forall (fun c => isUpload c = false) (calls st1) /\
    settle n r st1 = st2 /\
    isPostUpdateLoading st1 = true /\
    isPostUpdateLoading st2 = false /\
    (exists e,
       r = MutationFailed e /\
       calls st2 = calls st1 ++ [toastApolloError e]) /\
    staging st2 = staging st /\
    values st2 = values st /\
    pending st2 = pending st /\
    calls (onSubmit postId st2)
    = calls st2 ++ [updatePostMutation (variablesOf (values st))].
Proof.
  intros st V F n st1 k st2 Hk Hr.
  assert (W : wellStaged st) by apply wellStaged_run, wellStaged_initial.
  assert (U : noUpload st)
    by (apply noUpload_run; [apply wellStaged_initial | constructor]).
  assert (E1 : st1 = setPending (pending st ++ [AfterMutation])
                 (call [updatePostMutation (variablesOf (values st))]
                    (setIsPostUpdateLoading true
                       (setErrors (validate (values st)) st))))
    by now apply onSubmit_valid.
  clearbody st1. subst st1. subst n.
  cbn [pending setPending] in Hk, Hr. unfold settle. cbn [pending setPending].
  rewrite nth_error_last in *. injection Hk as <-.
  rewrite removeNth_last in *. rewrite Hr.
  destruct r as [urls|reason|post|e]; try discriminate.
  cbn in Hr. injection Hr as <-.
  split; [reflexivity|].
  split.
  { cbn. apply Forall_app. split; [exact U | now repeat constructor]. }
  split; [reflexivity|]. split; [reflexivity|]. split; [reflexivity|].
  split; [exists e; split; reflexivity|].
  split; [reflexivity|]. split; [reflexivity|]. split; [reflexivity|].
  rewrite onSubmit_valid.
  - reflexivity.
  - eapply wellStaged_ext; [|exact W]. reflexivity.
  - exact V.
Qed.


(** C5. A submit with an empty title or empty contents calls neither the
    upload nor the mutation: the only call is one warning toast, with the
    message of the title when the title is empty and the message of the
    contents otherwise; nothing is suspended and the staging store, the
    form values and the loading flag are unchanged. *)
Theorem empty_field_blocks_submission (st : State) :
  title (values st) = EmptyString \/ contents (values st) = EmptyString ->
  let st' := onSubmit postId st in
  calls st' =
    calls st ++
    [toast_warn
       (Some (if String.eqb (title (values st)) EmptyString
              then "글 제목을 작성한 후 완료를 눌러주세요"
              else "글 내용을 작성한 후 완료를 눌러주세요"))] /\
  pending st' = pending st /\
  staging st' = staging st /\
  values st' = values st /\
  isPostUpdateLoading st' = isPostUpdateLoading st.
Proof.
  intros H st'. subst st'. unfold onSubmit, isEmpty, errorEffect, validate.
  cbn [title_error contents_error].
  destruct (String.eqb_spec (title (values st)) EmptyString) as [Ht|Ht];
    destruct (String.eqb_spec (contents (values st)) EmptyString) as [Hc|Hc];
    cbn; try tauto; repeat split; reflexivity.
Qed.

(** While the flag is set, the button and the inputs are disabled and a
    click on the button leaves the page as it is. *)
Lemma pending_click_does_nothing (loading : bool) (st : State) :
  isPostUpdateLoading st = true ->
  submitDisabled loading st = true /\
  inputDisabled loading st = true /\
  clickSubmit postId loading st = st.
Proof.
  intros H.
  assert (D : submitDisabled loading st = true)
    by (unfold submitDisabled; rewrite H; apply orb_true_r).
  split; [exact D|].
  split; [unfold inputDisabled; rewrite H; apply orb_true_r|].
  unfold clickSubmit. now rewrite D.
Qed.

(** C8, what the submit handler does.  The flag makes the submit button
    and the inputs disabled, so that a click on the button while a
    submission is pending does nothing; in a session, two clicks in a row
    on an enabled button with valid form values make one mutation call,
    the second click finding the button disabled. *)
Theorem pending_submission_disables_submit
  (hasFormData : bool) (acts : list Action) (loading loading' : bool) :
  let st := run' acts (initial hasFormData) in
  valid (values st) ->
  submitDisabled loading st = false ->
  let st1 := clickSubmit postId loading st in
  let st2 := clickSubmit postId loading' st1 in
  isPostUpdateLoading st1 = true /\
  submitDisabled loading' st1 = true /\
  inputDisabled loading' st1 = true /\
  st2 = st1 /\
  calls st2 = calls st ++ [updatePostMutation (variablesOf (values st))] /\
  length (filter isMutation (calls st2))
  = S (length (filter isMutation (calls st))).
Proof.
  intros st V D st1 st2.
  assert (W : wellStaged st) by apply wellStaged_run, wellStaged_initial.
  assert (E1 : st1 = setPending (pending st ++ [AfterMutation])
                 (call [updatePostMutation (variablesOf (values st))]
                    (setIsPostUpdateLoading true
                       (setErrors (validate (values st)) st)))).
  { subst st1. unfold clickSubmit. rewrite D. now apply onSubmit_valid. }
  clearbody st1. subst st1.
  assert (D' : submitDisabled loading'
                 (setPending (pending st ++ [AfterMutation])
                    (call [updatePostMutation (variablesOf (values st))]
                       (setIsPostUpdateLoading true
                          (setErrors (validate (values st)) st)))) = true).
  { unfold submitDisabled. cbn. now rewrite !orb_true_r. }
  assert (E2 : st2 = setPending (pending st ++ [AfterMutation])
                 (call [updatePostMutation (variablesOf (values st))]
                    (setIsPostUpdateLoading true
                       (setErrors (validate (values st)) st))))
    by (subst st2; unfold clickSubmit; now rewrite D').
  clearbody st2. subst st2.
  split; [reflexivity|]. split; [exact D'|].
  split; [unfold inputDisabled; cbn; apply orb_true_r|].
  split; [reflexivity|]. split; [reflexivity|].
  cbn [calls setPending call setIsPostUpdateLoading setErrors].
  rewrite filter_app, length_app. cbn. lia.
Qed.

End Page.

End PostUpdatePageFacts.

(** ** The render hints of the two pages *)

Module RenderHintFacts.



End RenderHintFacts.

(** ** Sessions of the update page on concrete files *)

Module Scenario.
Import PostUpdatePage.

Definition objectURL (file : File) : string := "blob:" ++ file_name file.

Definition png : File := {| file_name := "a.png"; file_type := "image/png" |}.
Definition txt : File := {| file_name := "b.txt"; file_type := "text/plain" |}.
Definition jpg : File := {| file_name := "c.jpg"; file_type := "image/jpeg" |}.

(** A title and contents are typed and one image is staged. *)
Definition filled : State :=
  run "post-1" objectURL
    [TitleTyped "t"; ContentsTyped "c"; FilesSelected (Some [png])]
    (initial true).

Definition variables : UpdatePostMutationVariables :=
  {| input_id := "post-1"; input_title := "t"; input_contents := "c";
     input_imageUrls := None |}.

(** Two images and a text file are selected, then the first image is
    removed. *)
Example stage_then_unstage :
  let st := createPreviewImages objectURL (Some [png; txt; jpg]) (initial true) in
  imageInfos st = [Preview 0 "blob:a.png"; Preview 2 "blob:c.jpg"] /\
  bundleKeys st = ["image0"; "image2"] /\
  imageId st = 4%N /\
  imageInfos (deletePreviewImage 0 st) = [Preview 2 "blob:c.jpg"] /\
  bundleKeys (deletePreviewImage 0 st) = ["image2"].
Proof. repeat split. Qed.

(** An id is not given out again after its image has been removed. *)
Example removed_id_is_not_reused :
  assignedIds "post-1" objectURL
    [FilesSelected (Some [png]); DeleteClicked 0; FilesSelected (Some [jpg])]
    (initial true)
  = [0%N; 2%N].
Proof. reflexivity. Qed.

(** C1, at the failing input: one image is staged, the form is valid, and
    the submit calls the mutation alone, with no image URLs; the upload is
    not called although the bundle holds the image. *)
Example staged_image_is_not_uploaded :
  bundleKeys filled = ["image0"] /\
  calls (onSubmit "post-1" filled) = [updatePostMutation variables] /\
  pending (onSubmit "post-1" filled) = [AfterMutation].
Proof. repeat split. Qed.

(** The upload branch of [updatePost], on a bundle that has an entry
    named images, which no session produces: a rejected upload leaves the
    loading flag set and shows nothing. *)
Example rejected_upload_is_not_handled :
  let st :=
    setRefs (Some [("images", png)]) 0
      (setValues {| title := "t"; contents := "c" |} (initial true)) in
  let st1 := onSubmit "post-1" st in
  calls st1 = [uploadImageFiles [("images", png)]] /\
  let st2 := settle 0 (UploadRejected "413") st1 in
  isPostUpdateLoading st2 = true /\ calls st2 = calls st1 /\ pending st2 = [].
Proof. repeat split. Qed.

(** C8, as the claim states it for the submit handler: while the first
    submission is pending and the flag is set, a second invocation of the
    handler calls the mutation again. *)
Lemma second_submit_calls_the_mutation_again :
  let st1 := onSubmit "post-1" filled in
  isPostUpdateLoading st1 = true /\
  pending st1 = [AfterMutation] /\
  calls (onSubmit "post-1" st1)
  = [updatePostMutation variables; updatePostMutation variables].
Proof. repeat split. Qed.

Lemma filled_valid : PostUpdatePageFacts.valid (values filled).
Proof. split; discriminate. Defined.

(** The witness of [staging_keeps_exactly_the_images]. *)
Lemma staging_witness :
  length
    (imageInfos
       (PostUpdatePageFacts.selectAll objectURL
          [Some [png; txt]; None; Some [jpg]] (initial true)))
  = 0 + 2.
Proof.
  apply (PostUpdatePageFacts.staging_keeps_exactly_the_images objectURL
           (initial true) [] [Some [png; txt]; None; Some [jpg]] eq_refl).
Defined.

(** The witness of [failed_submission_keeps_the_form]. *)
Lemma failed_submission_witness :
  isPostUpdateLoading
    (settle 0 (MutationFailed "network error") (onSubmit "post-1" filled))
  = false.
Proof.
  destruct (PostUpdatePageFacts.failed_submission_keeps_the_form
              "post-1" objectURL true
              [TitleTyped "t"; ContentsTyped "c"; FilesSelected (Some [png])]
              (MutationFailed "network error") filled_valid eq_refl
              AfterMutation _ eq_refl eq_refl)
    as [_ [_ [_ [_ [H _]]]]].
  exact H.
Defined.

(** The witness of [empty_field_blocks_submission]. *)
Lemma empty_title_witness :
  calls (onSubmit "post-1"
           (setValues {| title := EmptyString; contents := "hi" |}
              (initial true)))
  = [toast_warn (Some "글 제목을 작성한 후 완료를 눌러주세요")].
Proof.
  apply (PostUpdatePageFacts.empty_field_blocks_submission "post-1"
           (setValues {| title := EmptyString; contents := "hi" |}
              (initial true))).
  left. reflexivity.
Defined.

(** The witness of [pending_submission_disables_submit]. *)
Lemma double_click_witness :
  clickSubmit "post-1" false (clickSubmit "post-1" false filled)
  = clickSubmit "post-1" false filled.
Proof.
  apply (PostUpdatePageFacts.pending_submission_disables_submit
           "post-1" objectURL true
           [TitleTyped "t"; ContentsTyped "c"; FilesSelected (Some [png])]
           false false filled_valid eq_refl).
Defined.

End Scenario.

(** * Further properties of the pages *)

(** ** The staging store: how selections and removals compose *)

Module StagingFacts.
Import PostUpdatePage PostUpdatePageFacts.

Lemma numbered_app files1 files2 cur :
  numbered (files1 ++ files2) cur
  = numbered files1 cur
    ++ numbered files2 (cur + 2 * N.of_nat (length (numbered files1 cur)))%N.
Proof.
  revert cur.
  induction files1 as [|f files1 IH]; intros cur; cbn [app numbered length].
  - cbn [app]. f_equal. lia.
  - destruct (isImage f); [|apply IH].
    cbn [app length]. rewrite IH, Nat2N.inj_succ.
    replace (N.succ (N.succ cur)
             + 2 * N.of_nat (length (numbered files1 (N.succ (N.succ cur)))))%N
      with (cur + 2 * N.succ
                    (N.of_nat
                       (length (numbered files1 (N.succ (N.succ cur))))))%N
      by lia.
    reflexivity.
Qed.

(** The ids of the images of a selection: the counter, the counter plus
    two, and so on. *)
Lemma numbered_ids files cur :
  map fst (numbered files cur)
  = map (fun k => (cur + 2 * N.of_nat k)%N)
      (seq 0 (length (numbered files cur))).
Proof.
  revert cur. induction files as [|f files IH]; intros cur; cbn [numbered].
  - reflexivity.
  - destruct (isImage f); [|apply IH].
    cbn [length seq map fst]. f_equal; [lia|].
    rewrite IH, <- seq_shift, map_map. apply map_ext. intros k.
    rewrite Nat2N.inj_succ. lia.
Qed.

Lemma filter_commute {A} (f g : A -> bool) l :
  filter f (filter g l) = filter g (filter f l).
Proof.
  induction l as [|a l IH]; simpl; [reflexivity|].
  destruct (f a) eqn:Ef, (g a) eqn:Eg; simpl; rewrite ?Ef, ?Eg, IH; reflexivity.
Qed.

Lemma filter_all {A} (f : A -> bool) l :
  Forall (fun a => f a = true) l -> filter f l = l.
Proof.
  induction 1 as [|a l Ha Hl IH]; simpl; [reflexivity|]. now rewrite Ha, IH.
Qed.

Lemma filter_none {A} (f : A -> bool) l :
  Forall (fun a => f a = false) l -> filter f l = [].
Proof.
  induction 1 as [|a l Ha Hl IH]; simpl; [reflexivity|]. now rewrite Ha.
Qed.

Section Page.

Variable postId : string.
Variable createObjectURL : File -> string.

Local Abbreviation create := (createPreviewImages createObjectURL).
Local Abbreviation step' := (step postId createObjectURL).
Local Abbreviation run' := (run postId createObjectURL).
Local Abbreviation assignedIds' := (assignedIds postId createObjectURL).

(** Previews and entries of newly numbered images survive the removal of
    an id below their numbering. *)
Lemma new_previews_kept id files cur :
  (id < cur)%N ->
  filter (idDiffers id) (map (previewOf createObjectURL) (numbered files cur))
  = map (previewOf createObjectURL) (numbered files cur).
Proof.
  intros Hlt. apply filter_all, Forall_forall. intros i Hi.
  apply in_map_iff in Hi. destruct Hi as [e [<- He]].
  assert (G := numbered_ge files cur). rewrite Forall_forall in G.
  specialize (G (fst e) (in_map fst _ _ He)). cbn beta in G.
  unfold idDiffers, previewOf. simpl.
  destruct (N.eqb_spec (fst e) id); [lia | reflexivity].
Qed.

Lemma new_entries_kept id files cur :
  (id < cur)%N ->
  FormData.delete (map entryOf (numbered files cur)) (imageKey id)
  = map entryOf (numbered files cur).
Proof.
  intros Hlt. apply filter_all, Forall_forall. intros e' He'.
  apply in_map_iff in He'. destruct He' as [e [<- He]].
  assert (G := numbered_ge files cur). rewrite Forall_forall in G.
  specialize (G (fst e) (in_map fst _ _ He)). cbn beta in G.
  unfold entryOf. cbn [fst].
  destruct (String.eqb_spec (imageKey (fst e)) (imageKey id)) as [E|];
    [|reflexivity].
  apply imageKey_inj in E. lia.
Qed.

Lemma delete_app (fd1 fd2 : FormData.t File) name :
  FormData.delete (fd1 ++ fd2) name
  = FormData.delete fd1 name ++ FormData.delete fd2 name.
Proof. apply filter_app. Qed.

(** X1. Selecting files in one go or in two successive selections gives
    the same page: previews, bundle and counter agree. *)
Theorem selection_in_two_steps (files1 files2 : list File) (st : State) :
  create (Some (files1 ++ files2)) st
  = create (Some files2) (create (Some files1) st).
Proof.
  destruct (formData st) as [fd|] eqn:Hfd.
  - rewrite (createPreviewImages_eq createObjectURL (files1 ++ files2) st fd Hfd).
    rewrite (createPreviewImages_eq createObjectURL files1 st fd Hfd).
    erewrite (createPreviewImages_eq createObjectURL files2) by reflexivity.
    cbn [imageInfos imageId setImageInfos setRefs].
    rewrite numbered_app, !map_app, length_app, Nat2N.inj_add, !app_assoc.
    set (m1 := N.of_nat (length (numbered files1 (imageId st)))).
    set (new2 := numbered files2 (imageId st + 2 * m1)%N).
    replace (imageId st + 2 * (m1 + N.of_nat (length new2)))%N
      with (imageId st + 2 * m1 + 2 * N.of_nat (length new2))%N by lia.
    reflexivity.
  - assert (E : forall files, create files st = st).
    { intros files. unfold createPreviewImages. rewrite Hfd.
      now destruct files as [[|f files]|]. }
    now rewrite !E.
Qed.

(** X6. Two removals can be done in either order. *)
Theorem removals_commute (a b : N) (st : State) :
  deletePreviewImage a (deletePreviewImage b st)
  = deletePreviewImage b (deletePreviewImage a st).
Proof.
  unfold deletePreviewImage.
  destruct (formData st) as [fd|] eqn:Hfd;
    cbn [formData imageInfos imageId setImageInfos setRefs];
    rewrite ?Hfd; [|reflexivity].
  unfold setImageInfos, setRefs, FormData.delete. cbn.
  f_equal; [apply filter_commute | f_equal; apply filter_commute].
Qed.

(** X5. Removing an id that the counter has already passed commutes with
    a later selection: the new images get the same ids and are not
    touched by the removal. *)
Theorem removal_commutes_with_selection
  (id : N) (files : list File) (st : State) :
  (id < imageId st)%N ->
  deletePreviewImage id (create (Some files) st)
  = create (Some files) (deletePreviewImage id st).
Proof.
  intros Hlt. destruct (formData st) as [fd|] eqn:Hfd.
  - rewrite (createPreviewImages_eq createObjectURL files st fd Hfd).
    unfold deletePreviewImage at 2. rewrite Hfd.
    erewrite (createPreviewImages_eq createObjectURL files) by reflexivity.
    unfold deletePreviewImage.
    cbn [formData imageInfos imageId setImageInfos setRefs].
    rewrite filter_app, delete_app.
    rewrite (new_previews_kept id files (imageId st) Hlt).
    rewrite (new_entries_kept id files (imageId st) Hlt).
    reflexivity.
  - assert (E : create (Some files) st = st).
    { unfold createPreviewImages. rewrite Hfd. now destruct files. }
    assert (D : deletePreviewImage id st = st)
      by (unfold deletePreviewImage; now rewrite Hfd).
    now rewrite E, D, E.
Qed.

End Page.

End StagingFacts.

(** ** Sessions of the update page *)

Module SessionFacts.
Import PostUpdatePage PostUpdatePageFacts.

Lemma seq_from m n : seq m n = map (fun k => m + k) (seq 0 n).
Proof.
  revert m. induction n as [|n IH]; intros m; simpl; [reflexivity|].
  f_equal; [lia|]. rewrite (IH (S m)), (IH 1), map_map.
  apply map_ext. intros k. lia.
Qed.

Lemma removeNth_length {A} (l : list A) n k :
  nth_error l n = Some k -> S (length (removeNth n l)) = length l.
Proof.
  revert n. induction l as [|a l IH]; intros [|n] H; simpl in *;
    try discriminate; [reflexivity|].
  now rewrite (IH n H).
Qed.

Lemma removeNth_Forall {A} (P : A -> Prop) (l : list A) n :
  Forall P l -> Forall P (removeNth n l).
Proof.
  intros H. revert n. induction H as [|a l Ha Hl IH]; intros [|n]; simpl;
    try constructor; auto.
Qed.

Definition isSuccess (c : Call) : bool :=
  match c with toast_success _ => true | _ => false end.

Definition isErrorToast (c : Call) : bool :=
  match c with toastApolloError _ => true | _ => false end.

Definition isBack (c : Call) : bool :=
  match c with router_back => true | _ => false end.

Definition count (p : Call -> bool) (st : State) : nat :=
  length (filter p (calls st)).

(** The part of the state a submission works on. *)
Definition control (st : State) : bool * list Continuation * list Call :=
  (isPostUpdateLoading st, pending st, calls st).

Definition allFetched (st : State) : Prop :=
  Forall (fun i => info_id i = None) (imageInfos st).

Section Page.

Variable postId : string.
Variable createObjectURL : File -> string.

Local Abbreviation create := (createPreviewImages createObjectURL).
Local Abbreviation step' := (step postId createObjectURL).
Local Abbreviation run' := (run postId createObjectURL).
Local Abbreviation assignedIds' := (assignedIds postId createObjectURL).
Local Abbreviation assignedBy' := (assignedBy createObjectURL).

Lemma run_cons a acts st : run' (a :: acts) st = run' acts (step' st a).
Proof. reflexivity. Qed.

Lemma create_no_bundle files st : formData st = None -> create files st = st.
Proof.
  intros H. unfold createPreviewImages. rewrite H.
  now destruct files as [[|f files]|].
Qed.

Lemma delete_no_bundle id st :
  formData st = None -> deletePreviewImage id st = st.
Proof. intros H. unfold deletePreviewImage. now rewrite H. Qed.

(** *** The ids are the even numbers, in order *)

Lemma step_counter a st :
  assignedBy' a st
  = map (fun k => (imageId st + 2 * N.of_nat k)%N)
      (seq 0 (length (assignedBy' a st))) /\
  imageId (step' st a)
  = (imageId st + 2 * N.of_nat (length (assignedBy' a st)))%N.
Proof.
  assert (Same : forall st', imageId st' = imageId st ->
            [] = map (fun k => (imageId st + 2 * N.of_nat k)%N)
                   (seq 0 (@length N [])) /\
            imageId st' = (imageId st + 2 * N.of_nat (@length N []))%N).
  { intros st' En. split; [reflexivity|]. rewrite En. cbn [length]. lia. }
  assert (Kept : forall st', staging st' = staging st ->
            imageId st' = imageId st).
  { intros st' E. unfold staging in E. now injection E. }
  destruct a as [text|text|post|files|id| |n r]; cbn [step assignedBy].
  - now apply Same.
  - now apply Same.
  - apply Same. destruct post as [post|]; [|reflexivity].
    unfold postQueryCompleted. now destruct (post_imageUrls post).
  - destruct (formData st) as [fd|] eqn:Hfd.
    + destruct files as [files|]; [|now apply Same].
      rewrite (newIds_eq createObjectURL files st fd Hfd).
      rewrite (createPreviewImages_eq createObjectURL files st fd Hfd).
      rewrite length_map. split; [apply StagingFacts.numbered_ids | reflexivity].
    + rewrite (newIds_no_bundle createObjectURL files st Hfd).
      apply Same. now rewrite create_no_bundle.
  - apply Same. unfold deletePreviewImage. now destruct (formData st).
  - apply Same, Kept, staging_onSubmit.
  - apply Same, Kept, staging_settle.
Qed.

Lemma run_counter acts : forall st,
  exists n,
    assignedIds' acts st
    = map (fun k => (imageId st + 2 * N.of_nat k)%N) (seq 0 n) /\
    imageId (run' acts st) = (imageId st + 2 * N.of_nat n)%N.
Proof.
  induction acts as [|a acts IH]; intros st.
  - exists 0. split; [reflexivity|]. simpl. lia.
  - destruct (step_counter a st) as [Ha Hc].
    destruct (IH (step' st a)) as [n [Hn Hr]].
    set (m := length (assignedBy' a st)) in *.
    exists (m + n). rewrite run_cons, assignedIds_cons, Hr, Hc, Hn.
    split; [|rewrite Nat2N.inj_add; lia].
    fold assignedBy'. rewrite Ha. fold m.
    rewrite seq_app, map_app. f_equal.
    rewrite (seq_from (0 + m) n), map_map. apply map_ext. intros k.
    rewrite Nat2N.inj_add. cbn [Nat.add]. lia.
Qed.

(** X2. In a session the image staged k-th (counting from zero) gets the
    id 2k, whatever has been removed in between, and the counter stands at
    twice the number of images staged so far. *)
Theorem ids_are_the_even_numbers (hasFormData : bool) (acts : list Action) :
  let assigned := assignedIds' acts (initial hasFormData) in
  assigned = map (fun k => (2 * N.of_nat k)%N) (seq 0 (length assigned)) /\
  imageId (run' acts (initial hasFormData))
  = (2 * N.of_nat (length assigned))%N.
Proof.
  intros assigned.
  destruct (run_counter acts (initial hasFormData)) as [n [Hn Hr]].
  fold assigned in Hn.
  assert (L : length assigned = n)
    by (rewrite Hn; now rewrite length_map, length_seq).
  rewrite L, Hr, Hn. split; [|now destruct hasFormData].
  apply map_ext. intros k. now destruct hasFormData.
Qed.

(** *** A page without FormData *)

Lemma no_bundle_step a st :
  formData st = None -> imageId st = 0%N -> allFetched st ->
  formData (step' st a) = None /\ imageId (step' st a) = 0%N /\
  allFetched (step' st a) /\ assignedBy' a st = [].
Proof.
  intros Hfd Hid Hf.
  assert (Same : forall st', staging st' = staging st ->
            formData st' = None /\ imageId st' = 0%N /\ allFetched st' /\
            @nil N = []).
  { intros st' E. unfold staging in E. injection E as Ei Ef En.
    unfold allFetched. now rewrite Ei, Ef, En. }
  destruct a as [text|text|post|files|id| |n r]; cbn [step assignedBy].
  - now apply Same.
  - now apply Same.
  - destruct post as [post|]; [|now apply Same]. unfold postQueryCompleted.
    destruct (post_imageUrls post) as [urls|]; [|now apply Same].
    unfold allFetched. cbn. repeat split; auto.
    apply Forall_forall. intros i Hi. apply in_map_iff in Hi.
    now destruct Hi as [u [<- _]].
  - rewrite (newIds_no_bundle createObjectURL files st Hfd).
    apply Same. now rewrite create_no_bundle.
  - apply Same. now rewrite delete_no_bundle.
  - apply Same, staging_onSubmit.
  - apply Same, staging_settle.
Qed.

Lemma no_bundle_run acts : forall st,
  formData st = None -> imageId st = 0%N -> allFetched st ->
  formData (run' acts st) = None /\ imageId (run' acts st) = 0%N /\
  allFetched (run' acts st) /\ assignedIds' acts st = [].
Proof.
  induction acts as [|a acts IH]; intros st Hfd Hid Hf.
  - repeat split; assumption.
  - destruct (no_bundle_step a st Hfd Hid Hf) as [H1 [H2 [H3 H4]]].
    destruct (IH (step' st a) H1 H2 H3) as [G1 [G2 [G3 G4]]].
    rewrite run_cons, assignedIds_cons. fold assignedBy'.
    now rewrite H4, G4.
Qed.

(** X3. Where the environment has no FormData the page never stages
    anything: in every session the bundle stays null, the counter stays
    at zero, no id is assigned, the only images on display are those the
    query fetched, and selecting files or removing an id leaves the page
    as it is. *)
Theorem nothing_is_staged_without_FormData (acts : list Action) :
  let st := run' acts (initial false) in
  formData st = None /\ imageId st = 0%N /\
  assignedIds' acts (initial false) = [] /\
  (forall info, In info (imageInfos st) -> exists url, info = Fetched url) /\
  (forall files, create files st = st) /\
  (forall id, deletePreviewImage id st = st).
Proof.
  intros st.
  destruct (no_bundle_run acts (initial false) eq_refl eq_refl)
    as [H1 [H2 [H3 H4]]]; [constructor|].
  fold st in H1, H2, H3.
  split; [exact H1|]. split; [exact H2|]. split; [exact H4|].
  split; [|split].
  - intros info Hi. unfold allFetched in H3. rewrite Forall_forall in H3.
    specialize (H3 info Hi). destruct info as [id url|url]; [discriminate|].
    now exists url.
  - intros files. now apply create_no_bundle.
  - intros id. now apply delete_no_bundle.
Qed.

End Page.

End SessionFacts.

(** ** Previews against the bundle *)

Module BundleFacts.
Import PostUpdatePage PostUpdatePageFacts.

Section Page.

Variable postId : string.
Variable createObjectURL : File -> string.

Local Abbreviation create := (createPreviewImages createObjectURL).
Local Abbreviation step' := (step postId createObjectURL).
Local Abbreviation run' := (run postId createObjectURL).

(** Every preview on display has its file in the bundle, and the bundle
    holds images only. *)
Definition linked (st : State) : Prop :=
  (forall id url, In (Preview id url) (imageInfos st) ->
     exists fd file,
       formData st = Some fd /\ In (imageKey id, file) fd /\
       url = createObjectURL file) /\
  (forall fd name file,
     formData st = Some fd -> In (name, file) fd -> isImage file = true).

Lemma linked_ext st st' : staging st' = staging st -> linked st -> linked st'.
Proof.
  unfold staging, linked. intros E [H1 H2]. injection E as Ei Ef En.
  rewrite Ei, Ef. split; assumption.
Qed.

Lemma numbered_images files cur e :
  In e (numbered files cur) -> isImage (snd e) = true.
Proof.
  intros He. assert (H := numbered_files files cur).
  apply (in_map snd) in He. rewrite H in He.
  apply filter_In in He. apply He.
Qed.

Lemma linked_step a st : linked st -> linked (step' st a).
Proof.
  intros L. destruct a as [text|text|post|files|id| |n r]; cbn [step].
  - eapply linked_ext; [|exact L]. reflexivity.
  - eapply linked_ext; [|exact L]. reflexivity.
  - destruct post as [post|]; [|exact L]. unfold postQueryCompleted.
    destruct (post_imageUrls post) as [urls|];
      [|eapply linked_ext; [|exact L]; reflexivity].
    destruct L as [_ L2]. split; cbn.
    + intros id url Hi. apply in_map_iff in Hi.
      destruct Hi as [u [Hu _]]. discriminate Hu.
    + exact L2.
  - destruct files as [files|]; [|exact L].
    destruct (formData st) as [fd|] eqn:Hfd.
    2:{ unfold createPreviewImages. rewrite Hfd. now destruct files. }
    rewrite (createPreviewImages_eq createObjectURL files st fd Hfd).
    destruct L as [L1 L2]. split; cbn [imageInfos formData setImageInfos setRefs].
    + intros id url Hi. apply in_app_or in Hi. destruct Hi as [Hi|Hi].
      * destruct (L1 id url Hi) as [fd' [file [Hf [Hin Hu]]]].
        rewrite Hfd in Hf. injection Hf as <-.
        exists (fd ++ map entryOf (numbered files (imageId st))), file.
        split; [reflexivity|]. split; [apply in_or_app; now left | exact Hu].
      * apply in_map_iff in Hi. destruct Hi as [e [He Hin]].
        unfold previewOf in He. injection He as <- <-.
        exists (fd ++ map entryOf (numbered files (imageId st))), (snd e).
        split; [reflexivity|]. split; [|reflexivity].
        apply in_or_app. right. apply in_map_iff. now exists e.
    + intros fd' name file Hf Hin. injection Hf as <-.
      apply in_app_or in Hin. destruct Hin as [Hin|Hin].
      * exact (L2 fd name file Hfd Hin).
      * apply in_map_iff in Hin. destruct Hin as [e [He Hin]].
        unfold entryOf in He. injection He as _ <-.
        exact (numbered_images files (imageId st) e Hin).
  - unfold deletePreviewImage.
    destruct (formData st) as [fd|] eqn:Hfd; [|exact L].
    destruct L as [L1 L2]. split; cbn [imageInfos formData setImageInfos setRefs].
    + intros id' url Hi. apply filter_In in Hi. destruct Hi as [Hi Hd].
      destruct (L1 id' url Hi) as [fd' [file [Hf [Hin Hu]]]].
      rewrite Hfd in Hf. injection Hf as <-.
      exists (FormData.delete fd (imageKey id)), file.
      split; [reflexivity|]. split; [|exact Hu].
      apply filter_In. split; [exact Hin|]. cbn [fst].
      unfold idDiffers in Hd. cbn in Hd.
      destruct (String.eqb_spec (imageKey id') (imageKey id)) as [E|];
        [|reflexivity].
      apply imageKey_inj in E. subst id'. now rewrite N.eqb_refl in Hd.
    + intros fd' name file Hf Hin. injection Hf as <-.
      apply filter_In in Hin. exact (L2 fd name file Hfd (proj1 Hin)).
  - eapply linked_ext; [apply staging_onSubmit | exact L].
  - eapply linked_ext; [apply staging_settle | exact L].
Qed.

Lemma linked_run acts : forall st, linked st -> linked (run' acts st).
Proof.
  induction acts as [|a acts IH]; intros st L; [exact L|].
  apply IH, linked_step, L.
Qed.

Lemma linked_initial b : linked (initial b).
Proof.
  split.
  - intros id url [].
  - intros fd name file Hf Hin. destruct b; [|discriminate].
    injection Hf as <-. destruct Hin.
Qed.

(** X4. In every session each preview on display is backed by the
    bundle: under the key image<id> the bundle holds exactly one entry,
    the file whose object URL the preview shows; and every file in the
    bundle is an image. *)
Theorem previews_are_backed_by_the_bundle
  (hasFormData : bool) (acts : list Action) :
  let st := run' acts (initial hasFormData) in
  (forall id url, In (Preview id url) (imageInfos st) ->
     exists fd file,
       formData st = Some fd /\ In (imageKey id, file) fd /\
       url = createObjectURL file /\
       length (filter (fun e => String.eqb (fst e) (imageKey id)) fd) = 1) /\
  (forall fd name file,
     formData st = Some fd -> In (name, file) fd ->
     JS.startsWith (file_type file) "image/" = true).
Proof.
  intros st.
  assert (L : linked st) by apply linked_run, linked_initial.
  assert (W : wellStaged st) by apply wellStaged_run, wellStaged_initial.
  destruct L as [L1 L2]. split; [|exact L2].
  intros id url Hi. destruct (L1 id url Hi) as [fd [file [Hf [Hin Hu]]]].
  exists fd, file. repeat split; try assumption.
  destruct W as [_ _ Hn _]. unfold bundleKeys in Hn. rewrite Hf in Hn.
  unfold FormData.keys in Hn. clear - Hin Hn.
  induction fd as [|[k v] fd IH]; [destruct Hin|].
  cbn [map fst] in Hn. apply NoDup_cons_iff in Hn. destruct Hn as [Hk Hn].
  cbn [filter fst]. destruct Hin as [E|Hin].
  - injection E as -> ->. rewrite String.eqb_refl. cbn [length]. f_equal.
    rewrite StagingFacts.filter_none; [reflexivity|].
    apply Forall_forall. intros [k' v'] He. cbn [fst].
    destruct (String.eqb_spec k' (imageKey id)) as [->|]; [|reflexivity].
    exfalso. apply Hk. apply in_map_iff. now exists (imageKey id, v').
  - destruct (String.eqb_spec k (imageKey id)) as [->|]; [|now apply IH].
    exfalso. apply Hk. apply in_map_iff. now exists (imageKey id, file).
Qed.

(** X7. In a session with a bundle, staging one image and removing it at
    once brings back the previews and the bundle; only the counter has
    moved on, by two. *)
Theorem stage_then_remove_restores (acts : list Action) (file : File) :
  JS.startsWith (file_type file) "image/" = true ->
  let st := run' acts (initial true) in
  deletePreviewImage (imageId st) (create (Some [file]) st)
  = setRefs (formData st) (N.succ (N.succ (imageId st))) st.
Proof.
  intros Himg st.
  assert (W : wellStaged st) by apply wellStaged_run, wellStaged_initial.
  destruct (formData st) as [fd|] eqn:Hfd.
  2:{ exfalso. now apply (bundle_persists postId createObjectURL acts). }
  rewrite (createPreviewImages_eq createObjectURL [file] st fd Hfd).
  cbn [numbered]. fold (isImage file) in Himg. rewrite Himg.
  cbn [map length]. unfold deletePreviewImage.
  cbn [formData imageInfos imageId setImageInfos setRefs].
  destruct W as [Hk Hi _ _]. unfold bundleKeys, previewIds in Hk, Hi.
  rewrite Hfd in Hk. rewrite Forall_forall in Hk, Hi.
  rewrite filter_app, StagingFacts.delete_app.
  rewrite (filter_idDiffers_absent (imageId st) (imageInfos st)).
  2:{ intros Hin. specialize (Hi _ Hin). cbn beta in Hi. lia. }
  rewrite (FormDataFacts.delete_absent fd).
  2:{ intros Hin. destruct (Hk _ Hin) as [i [E Hlt]].
      apply imageKey_inj in E. lia. }
  unfold previewOf, entryOf, idDiffers, FormData.delete.
  cbn [filter fst snd info_id]. rewrite N.eqb_refl, String.eqb_refl.
  cbn [negb]. rewrite !app_nil_r.
  replace (imageId st + 2 * N.of_nat 1)%N with (N.succ (N.succ (imageId st)))
    by lia.
  reflexivity.
Qed.

End Page.

End BundleFacts.

(** ** Submissions of the update page *)

Module SubmissionFacts.
Import PostUpdatePage PostUpdatePageFacts SessionFacts.

Lemma count_app p st (l : list Call) :
  length (filter p (calls st ++ l))
  = count p st + length (filter p l).
Proof. unfold count. now rewrite filter_app, length_app. Qed.

Section Page.

Variable postId : string.
Variable createObjectURL : File -> string.

Local Abbreviation step' := (step postId createObjectURL).
Local Abbreviation run' := (run postId createObjectURL).
Local Abbreviation variablesOf' := (variablesOf postId).

(** What holds of the suspended calls and of the log in a session. *)
Record settled (st : State) : Prop := {
  awaits_mutation : Forall (eq AfterMutation) (pending st);
  loading_pending : isPostUpdateLoading st = true -> pending st <> [];
  outcomes_bounded :
    count isSuccess st + count isErrorToast st + length (pending st)
    <= count isMutation st;
  back_after_success : count isBack st = count isSuccess st
}.

Lemma settled_ext st st' : control st' = control st -> settled st -> settled st'.
Proof.
  unfold control. intros E [H1 H2 H3 H4]. injection E as El Ep Ec.
  split; unfold count in *; rewrite ?El, ?Ep, ?Ec; assumption.
Qed.

Lemma control_create files st :
  control (createPreviewImages createObjectURL files st) = control st.
Proof.
  unfold createPreviewImages. destruct files as [[|f files]|]; try reflexivity.
  destruct (formData st); [|reflexivity].
  now destruct (stageFiles _ _ _ _) as [[l fd'] next].
Qed.

Lemma control_delete id st : control (deletePreviewImage id st) = control st.
Proof. unfold deletePreviewImage. now destruct (formData st). Qed.

Lemma control_query post st : control (postQueryCompleted post st) = control st.
Proof.
  destruct post as [post|]; [|reflexivity]. unfold postQueryCompleted.
  now destruct (post_imageUrls post).
Qed.

Lemma settled_step a st :
  wellStaged st -> settled st -> settled (step' st a).
Proof.
  intros W S. destruct a as [text|text|post|files|id| |n r]; cbn [step].
  - eapply settled_ext; [|exact S]. reflexivity.
  - eapply settled_ext; [|exact S]. reflexivity.
  - eapply settled_ext; [apply control_query | exact S].
  - eapply settled_ext; [apply control_create | exact S].
  - eapply settled_ext; [apply control_delete | exact S].
  - destruct S as [H1 H2 H3 H4]. unfold onSubmit.
    destruct (isEmpty (validate (values st))) eqn:E.
    + rewrite updatePost_wellStaged
        by (eapply wellStaged_ext; [|exact W]; reflexivity).
      split; unfold count in *;
        cbn [calls pending isPostUpdateLoading
             setPending call setIsPostUpdateLoading setErrors].
      * apply Forall_app. split; [exact H1 | now repeat constructor].
      * intros _ Hn. now destruct (pending st).
      * rewrite !filter_app, !length_app. cbn. lia.
      * rewrite !filter_app, !length_app. cbn. lia.
    + split; unfold count in *;
        cbn [calls pending isPostUpdateLoading call setErrors];
        try assumption.
      * rewrite !filter_app, !length_app.
        unfold errorEffect. destruct (_ || _); cbn; lia.
      * rewrite !filter_app, !length_app.
        unfold errorEffect. destruct (_ || _); cbn; lia.
  - unfold settle. destruct (nth_error (pending st) n) as [k|] eqn:Hn; [|exact S].
    destruct S as [H1 H2 H3 H4].
    assert (Hk : k = AfterMutation).
    { rewrite Forall_forall in H1. symmetry. apply H1.
      eapply nth_error_In, Hn. }
    assert (Hl := removeNth_length (pending st) n k Hn).
    assert (Hf := removeNth_Forall (eq AfterMutation) (pending st) n H1).
    subst k.
    destruct r as [urls|reason|[post|]|e]; cbn [resume];
      try (split; assumption);
      split; unfold count in *;
        cbn [calls pending isPostUpdateLoading onCompleted onError
             setPending call setIsPostUpdateLoading];
        try assumption; try discriminate;
        try (rewrite !filter_app, !length_app; cbn; lia); lia.
Qed.

Lemma settled_run acts : forall st,
  wellStaged st -> settled st -> settled (run' acts st).
Proof.
  induction acts as [|a acts IH]; intros st W S; [exact S|].
  apply IH; [now apply wellStaged_step | now apply settled_step].
Qed.

Lemma settled_initial b : settled (initial b).
Proof. split; cbn; try constructor; discriminate. Qed.

(** X9. In a session the page is never left loading with nothing
    outstanding: while the loading flag is set, and the button and the
    inputs are therefore disabled, a call of [updatePost] is suspended on
    its mutation and will clear the flag when it settles. *)
Theorem loading_means_a_submission_is_pending
  (hasFormData : bool) (acts : list Action) :
  let st := run' acts (initial hasFormData) in
  isPostUpdateLoading st = true ->
  pending st <> [] /\
  Forall (eq AfterMutation) (pending st) /\
  forall r,
    (exists data, r = MutationCompleted data) \/
    (exists e, r = MutationFailed e) ->
    isPostUpdateLoading (settle 0 r st) = false.
Proof.
  intros st Hl.
  assert (S : settled st)
    by (apply settled_run; [apply wellStaged_initial | apply settled_initial]).
  destruct S as [H1 H2 _ _]. specialize (H2 Hl).
  split; [exact H2|]. split; [exact H1|].
  intros r Hr. unfold settle.
  destruct (pending st) as [|k p]; [contradiction|].
  apply Forall_inv in H1. subst k.
  destruct Hr as [[[post|] ->]|[e ->]]; reflexivity.
Qed.

(** X8. Neither a submit nor the settling of a promise touches what is
    staged or typed: the previews, the bundle, the counter and the form
    values stay as they are, also after a successful update. *)
Theorem submission_leaves_staging_and_values
  (st : State) (n : nat) (r : Settlement) :
  staging (onSubmit postId st) = staging st /\
  values (onSubmit postId st) = values st /\
  staging (settle n r st) = staging st /\
  values (settle n r st) = values st.
Proof.
  split; [apply staging_onSubmit|]. split.
  { unfold onSubmit, updatePost.
    destruct (isEmpty (validate (values st))); [|reflexivity].
    cbn [formData setIsPostUpdateLoading setErrors].
    destruct (formData st) as [fd|]; [destruct (FormData.has fd "images")|];
      reflexivity. }
  split; [apply staging_settle|].
  unfold settle. destruct (nth_error (pending st) n) as [k|]; [|reflexivity].
  destruct k as [v|], r as [urls|reason|[post|]|e]; reflexivity.
Qed.

(** X11. A submit that validation blocks leaves the submit button
    disabled, through the errors it stores: a further click on it does
    nothing, and in particular shows no second warning; the inputs stay
    as enabled as they were. *)
Theorem blocked_submit_disables_the_button (loading : bool) (st : State) :
  title (values st) = EmptyString \/ contents (values st) = EmptyString ->
  let st' := onSubmit postId st in
  submitDisabled loading st' = true /\
  clickSubmit postId loading st' = st' /\
  inputDisabled loading st' = inputDisabled loading st.
Proof.
  intros H st'.
  assert (E : st' = call (errorEffect (validate (values st)))
                      (setErrors (validate (values st)) st) /\
              isEmpty (validate (values st)) = false).
  { subst st'. unfold onSubmit, isEmpty, validate.
    cbn [title_error contents_error].
    destruct (String.eqb_spec (title (values st)) EmptyString);
      destruct (String.eqb_spec (contents (values st)) EmptyString);
      cbn; try tauto; split; reflexivity. }
  destruct E as [E Hv]. clearbody st'. subst st'.
  assert (D : submitDisabled loading
                (call (errorEffect (validate (values st)))
                   (setErrors (validate (values st)) st)) = true).
  { unfold submitDisabled. cbn [errors call setErrors]. rewrite Hv.
    cbn [negb]. now rewrite orb_true_r. }
  split; [exact D|]. split; [|reflexivity].
  unfold clickSubmit. now rewrite D.
Qed.

(** X12. In a session, a submission of valid form values that the
    mutation completes: with an updated post, the page shows the success
    toast and then goes back; with null data it shows nothing and stays.
    In both cases the only collaborator called before is the mutation and
    the loading flag is cleared. *)
Theorem completed_submission
  (hasFormData : bool) (acts : list Action) (post : string) :
  let st := run' acts (initial hasFormData) in
  valid (values st) ->
  let n := length (pending st) in
  let st1 := onSubmit postId st in
  let done := settle n (MutationCompleted (Some post)) st1 in
  let null := settle n (MutationCompleted None) st1 in
  calls done =
    calls st ++
    [updatePostMutation (variablesOf' (values st));
     toast_success "글을 수정했어요"; router_back] /\
  isPostUpdateLoading done = false /\ pending done = pending st /\
  calls null = calls st ++ [updatePostMutation (variablesOf' (values st))] /\
  isPostUpdateLoading null = false /\ pending null = pending st.
Proof.
  intros st V n st1 done null.
  assert (W : wellStaged st) by apply wellStaged_run, wellStaged_initial.
  assert (E1 : st1 = setPending (pending st ++ [AfterMutation])
                 (call [updatePostMutation (variablesOf' (values st))]
                    (setIsPostUpdateLoading true
                       (setErrors (validate (values st)) st))))
    by now apply onSubmit_valid.
  subst done null n. clearbody st1. subst st1.
  unfold settle. cbn [pending setPending].
  rewrite nth_error_last, removeNth_last. cbn.
  rewrite <- !app_assoc. repeat split; reflexivity.
Qed.

End Page.

End SubmissionFacts.

(** ** What the post page renders ([src/pages/post/[id].tsx]) *)

Module PostDetailView.

Record Post := {
  title : string;
  contents : string;
  imageUrls : option (list string)
}.

(** The children of the paragraph: a fragment of text or a line break. *)
Inductive Inline :=
| Text (content : string)
| Br.

Inductive Node :=
| LoadingPost
| EmptyFrame
| Title (text : string)
| Paragraph (children : list Inline)
| PostImage (src : string).

(** [post.contents.split(/\n/).map(content => <>{content}<br /></>)] *)
Definition renderContents (contents : string) : list Inline :=
  flat_map (fun content => [Text content; Br]) (JS.split JS.LF contents).

(** The post, or the placeholder while [postLoading || !post]. *)
Definition renderPost (postLoading : bool) (post : option Post) : list Node :=
  match post with
  | Some post =>
      if postLoading then [LoadingPost; EmptyFrame]
      else
        [Title (title post); Paragraph (renderContents (contents post))]
        ++ match imageUrls post with
           | Some urls => map PostImage urls
           | None => []
           end
  | None => [LoadingPost; EmptyFrame]
  end.

(** [`/@${author?.nickname}`], the path [goToUserDetailPage] pushes and
    the link of the author points to; the nickname is undefined until the
    post is there. *)
Definition userPath (nickname : option string) : string :=
  "/@" ++ match nickname with
          | Some nickname => nickname
          | None => "undefined"
          end.

Section Comments.

Variable Comment : Type.

Inductive Item :=
| LoadingComments
| Card (comment : Comment)
| NoComments.

(** The children of the list of comments. *)
Definition renderComments
  (commentsLoading : bool) (comments : option (list Comment)) : list Item :=
  (if commentsLoading then [LoadingComments] else [])
  ++ match comments with
     | Some comments => map Card comments
     | None => if negb commentsLoading then [NoComments] else []
     end.

End Comments.

Arguments LoadingComments {Comment}.
Arguments Card {Comment} comment.
Arguments NoComments {Comment}.
Arguments renderComments {Comment} commentsLoading comments.

(** [onError: toastApolloError] of [usePostQuery] and of
    [useCommentsByPostQuery], also when the comments are fetched again
    after a mutation. *)
Definition queryFailed (e : string) (st : PostDetailPage.State)
  : PostDetailPage.State :=
  {| PostDetailPage.parentComment := PostDetailPage.parentComment st;
     PostDetailPage.contents := PostDetailPage.contents st;
     PostDetailPage.error := PostDetailPage.error st;
     PostDetailPage.inFlight := PostDetailPage.inFlight st;
     PostDetailPage.calls :=
       PostDetailPage.calls st ++ [PostDetailPage.toastApolloError e] |}.

(** What can happen to the composer and to its log of toasts and
    mutations; [ParentSet] is the reply button of a comment card and, with
    no parent, [writeComment]. *)
Inductive Action :=
| Typed (text : string)
| ParentSet (parent : option PostDetailPage.ParentComment)
| Submitted
| MutationSettled (r : PostDetailPage.MutationResult)
| QueryFailed (error : string).

Definition step (postId : string) (st : PostDetailPage.State) (a : Action)
  : PostDetailPage.State :=
  match a with
  | Typed text => PostDetailPage.onChange text st
  | ParentSet parent => PostDetailPage.setParentComment parent st
  | Submitted => PostDetailPage.onSubmit postId st
  | MutationSettled r => PostDetailPage.settle r st
  | QueryFailed e => queryFailed e st
  end.

Definition isQueryFailed (a : Action) : bool :=
  match a with QueryFailed _ => true | _ => false end.

Definition run (postId : string) (acts : list Action)
  (st : PostDetailPage.State) : PostDetailPage.State :=
  fold_left (step postId) acts st.

End PostDetailView.

Module PostDetailViewFacts.
Import PostDetailView.

(** [segments.join('\n')] *)
Fixpoint joinLines (segments : list string) : string :=
  match segments with
  | [] => EmptyString
  | [segment] => segment
  | segment :: segments => segment ++ String JS.LF (joinLines segments)
  end.

Definition texts (children : list Inline) : list string :=
  flat_map (fun c => match c with Text s => [s] | Br => [] end) children.

Definition isBr (c : Inline) : bool :=
  match c with Br => true | Text _ => false end.

Lemma joinLines_cons segment segments :
  segments <> [] ->
  joinLines (segment :: segments)
  = (segment ++ String JS.LF (joinLines segments))%string.
Proof. now destruct segments. Qed.

Lemma joinLines_head c segment segments :
  joinLines (String c segment :: segments)
  = String c (joinLines (segment :: segments)).
Proof. now destruct segments. Qed.

Lemma split_join s : joinLines (JS.split JS.LF s) = s.
Proof.
  induction s as [|c s IH]; [reflexivity|]. cbn [JS.split].
  destruct (Ascii.eqb_spec c JS.LF) as [->|ne].
  - rewrite joinLines_cons by apply JSFacts.split_nonempty.
    now rewrite IH.
  - destruct (JS.split JS.LF s) as [|seg segs] eqn:E.
    + now apply JSFacts.split_nonempty in E.
    + now rewrite joinLines_head, IH.
Qed.

Lemma split_segments s :
  Forall (fun seg => JS.occurrences JS.LF seg = 0) (JS.split JS.LF s).
Proof.
  induction s as [|c s IH]; [now repeat constructor|]. cbn [JS.split].
  destruct (Ascii.eqb c JS.LF) eqn:Ec.
  - constructor; [reflexivity | exact IH].
  - destruct (JS.split JS.LF s) as [|seg segs].
    { constructor; [|constructor]. cbn [JS.occurrences]. now rewrite Ec. }
    apply Forall_cons_iff in IH. destruct IH as [H1 H2].
    constructor; [|exact H2]. cbn [JS.occurrences]. now rewrite Ec, H1.
Qed.

Lemma texts_render l :
  texts (flat_map (fun content => [Text content; Br]) l) = l.
Proof.
  unfold texts. induction l as [|a l IH]; [reflexivity|].
  cbn [flat_map app]. f_equal. exact IH.
Qed.

Lemma brs_render l :
  length (filter isBr (flat_map (fun content => [Text content; Br]) l))
  = length l.
Proof.
  induction l as [|a l IH]; [reflexivity|].
  cbn [flat_map app filter isBr length]. f_equal. exact IH.
Qed.

(** X18. The paragraph of a post loses nothing of its contents: the
    fragments of text, none of which holds a line feed, joined by line
    feeds give the contents back, and there is one line break for each
    fragment, one more than the contents have line feeds. *)
Theorem paragraph_renders_the_contents (contents : string) :
  let children := renderContents contents in
  joinLines (texts children) = contents /\
  Forall (fun s => JS.occurrences JS.LF s = 0) (texts children) /\
  length (filter isBr children) = S (JS.occurrences JS.LF contents) /\
  length children = 2 * length (texts children).
Proof.
  intros children. subst children. unfold renderContents.
  rewrite texts_render, brs_render, JSFacts.split_length.
  split; [apply split_join|]. split; [apply split_segments|].
  split; [reflexivity|].
  rewrite (flat_map_constant_length (c := 2)) by reflexivity.
  rewrite JSFacts.split_length. lia.
Qed.

(** The title, the paragraph and the images are rendered exactly
    when the post is there and the query is not loading, in this order and
    with one image for each URL; otherwise only the placeholder is. *)
Lemma post_or_placeholder (postLoading : bool) (post : option Post) :
  (postLoading = false /\
   exists p, post = Some p /\
     renderPost postLoading post
     = Title (title p) :: Paragraph (renderContents (contents p))
       :: map PostImage (match imageUrls p with Some l => l | None => [] end))
  \/
  ((postLoading = true \/ post = None) /\
   renderPost postLoading post = [LoadingPost; EmptyFrame]).
Proof.
  destruct post as [p|]; [|right; auto].
  destruct postLoading; [right; auto|].
  left. split; [reflexivity|]. exists p. split; [reflexivity|].
  unfold renderPost. now destruct (imageUrls p).
Qed.

Definition cardsOf {Comment} (items : list (Item Comment)) : list Comment :=
  flat_map (fun i => match i with Card c => [c] | _ => [] end) items.

Definition isNotice {Comment} (i : Item Comment) : bool :=
  match i with Card _ => false | _ => true end.

Lemma cardsOf_cards {Comment} (l : list Comment) : cardsOf (map Card l) = l.
Proof.
  unfold cardsOf. induction l as [|c l IH]; [reflexivity|].
  cbn [map flat_map app]. now rewrite IH.
Qed.

Lemma notices_of_cards {Comment} (l : list Comment) :
  filter isNotice (map Card l) = [].
Proof. induction l as [|c l IH]; [reflexivity | exact IH]. Qed.

Lemma notices_and_cards
  (Comment : Type) (commentsLoading : bool)
  (comments : option (list Comment)) :
  let items := renderComments commentsLoading comments in
  (In NoComments items <-> commentsLoading = false /\ comments = None) /\
  (In LoadingComments items <-> commentsLoading = true) /\
  ~ (In NoComments items /\ In LoadingComments items) /\
  (forall c, In (Card c) items <->
             exists l, comments = Some l /\ In c l) /\
  renderComments false (Some (@nil Comment)) = [].
Proof.
  intros items. subst items. unfold renderComments.
  assert (NC : forall l : list Comment, ~ In NoComments (map Card l)).
  { intros l H. apply in_map_iff in H. now destruct H as [c [Hc _]]. }
  assert (LC : forall l : list Comment, ~ In LoadingComments (map Card l)).
  { intros l H. apply in_map_iff in H. now destruct H as [c [Hc _]]. }
  assert (CC : forall (l : list Comment) c, In (Card c) (map Card l) <-> In c l).
  { intros l c. rewrite in_map_iff. split.
    - intros [c' [E H]]. now injection E as <-.
    - intros H. now exists c. }
  destruct commentsLoading, comments as [l|]; cbn [app negb].
  - split; [|split; [|split; [|split]]].
    + split; [|intros [H _]; discriminate]. intros [H|H]; [discriminate|].
      now apply NC in H.
    + split; auto. intros _. now left.
    + intros [[H|H] _]; [discriminate | now apply NC in H].
    + intros c. split.
      * intros [H|H]; [discriminate|]. exists l. split; [reflexivity|].
        now apply CC.
      * intros [l' [E H]]. injection E as <-. right. now apply CC.
    + reflexivity.
  - split; [|split; [|split; [|split]]].
    + split; [|intros [H _]; discriminate]. intros [H|[]]. discriminate.
    + split; auto. intros _. now left.
    + intros [[H|[]] _]. discriminate.
    + intros c. split.
      * intros [H|[]]. discriminate.
      * intros [l' [E _]]. discriminate.
    + reflexivity.
  - split; [|split; [|split; [|split]]].
    + split; [|intros [_ H]; discriminate]. intros H. now apply NC in H.
    + split; [|discriminate]. intros H. now apply LC in H.
    + intros [H _]. now apply NC in H.
    + intros c. rewrite CC. split.
      * intros H. now exists l.
      * intros [l' [E H]]. now injection E as <-.
    + reflexivity.
  - split; [|split; [|split; [|split]]].
    + split; auto. intros _. now left.
    + split; [|discriminate]. intros [H|[]]. discriminate.
    + intros [_ [H|[]]]. discriminate.
    + intros c. split.
      * intros [H|[]]. discriminate.
      * intros [l' [E _]]. discriminate.
    + reflexivity.
Qed.

(** X17. The cards of the comment list are the comments, each once and
    in their order.  Beside them there is at most one notice: the loading
    notice, first in the list, exactly when the query is loading; the
    notice that there are no comments exactly when the comments are
    undefined and the query is not loading, never beside the loading
    notice.  A post whose list of comments is empty renders neither
    notice nor card. *)
Theorem comment_list_notices
  (Comment : Type) (commentsLoading : bool)
  (comments : option (list Comment)) :
  let items := renderComments commentsLoading comments in
  cardsOf items = match comments with Some l => l | None => [] end /\
  length items = length (cardsOf items) + length (filter isNotice items) /\
  length (filter isNotice items) <= 1 /\
  (commentsLoading = true -> hd_error items = Some LoadingComments) /\
  (In NoComments items <-> commentsLoading = false /\ comments = None) /\
  (In LoadingComments items <-> commentsLoading = true) /\
  ~ (In NoComments items /\ In LoadingComments items) /\
  renderComments false (Some (@nil Comment)) = [].
Proof.
  intros items.
  destruct (notices_and_cards Comment commentsLoading comments)
    as [A [B [C [_ E]]]].
  fold items in A, B, C.
  assert (F : cardsOf items = match comments with Some l => l | None => [] end
              /\ length items
                 = length (cardsOf items) + length (filter isNotice items)
              /\ length (filter isNotice items) <= 1
              /\ (commentsLoading = true ->
                  hd_error items = Some LoadingComments)).
  { subst items. unfold renderComments.
    destruct commentsLoading, comments as [l|]; cbn [app negb].
    - change (cardsOf (LoadingComments :: map Card l)) with (cardsOf (map Card l)).
      cbn [filter isNotice length]. rewrite cardsOf_cards, notices_of_cards.
      rewrite length_map. cbn [length hd_error].
      repeat split; try lia; try discriminate.
    - cbn. repeat split; try lia; try discriminate.
    - rewrite cardsOf_cards, notices_of_cards, length_map. cbn [length].
      repeat split; try lia; try discriminate.
    - cbn. repeat split; try lia; try discriminate. }
  destruct F as [F1 [F2 [F3 F4]]].
  split; [exact F1|]. split; [exact F2|]. split; [exact F3|].
  split; [exact F4|]. split; [exact A|]. split; [exact B|].
  split; [exact C | exact E].
Qed.

(** X19. Whatever the nickname, and also before the author is there,
    the path of the user page selects neither navigation tab. *)
Theorem user_page_selects_no_tab (nickname : option string) :
  NavigationLayout.doesPostListSelected (userPath nickname) = false /\
  NavigationLayout.doesEventListSelected (userPath nickname) = false /\
  exists rest, userPath nickname = ("/@" ++ rest)%string.
Proof.
  split; [|split].
  - unfold userPath. now destruct nickname as [[|c n]|].
  - reflexivity.
  - unfold userPath. eexists. reflexivity.
Qed.

End PostDetailViewFacts.

(** ** Sessions of the comment composer *)

Module ComposerFacts.
Import PostDetailPage.

Definition isMutation (c : Call) : bool :=
  match c with createCommentMutation _ => true | _ => false end.

Definition isOutcome (c : Call) : bool :=
  match c with
  | toast_success _ | toastApolloError _ => true
  | createCommentMutation _ => false
  end.

Section Page.

Variable postId : string.

(** A mutation that was sent carries contents and this post. *)
Definition wellSent (c : Call) : Prop :=
  match c with
  | createCommentMutation v =>
      var_contents v <> EmptyString /\ var_postId v = postId
  | _ => True
  end.

Definition queryFailures (acts : list PostDetailView.Action) : nat :=
  length (filter PostDetailView.isQueryFailed acts).

Definition isSuccess (c : Call) : bool :=
  match c with toast_success _ => true | _ => false end.

Definition tally (p : Call -> bool) (st : State) : nat :=
  length (filter p (calls st)).

(** What a step adds to the log and to the mutations in flight. *)
Lemma step_accounts a st :
  Forall wellSent (calls st) ->
  let st' := PostDetailView.step postId st a in
  Forall wellSent (calls st') /\
  tally isSuccess st' + inFlight st' + tally isMutation st
  <= tally isMutation st' + tally isSuccess st + inFlight st /\
  tally isOutcome st' + inFlight st' + tally isMutation st
  <= tally isMutation st' + tally isOutcome st + inFlight st
     + queryFailures [a].
Proof.
  intros H1 st'. subst st'. unfold tally, queryFailures.
  destruct a as [text|parent| |r|e];
    cbn [PostDetailView.step PostDetailView.isQueryFailed filter length].
  - split; [exact H1|]. cbn. lia.
  - split; [exact H1|]. cbn. lia.
  - unfold onSubmit.
    destruct (String.eqb_spec (contents st) EmptyString) as [E|E].
    + split; [exact H1|]. cbn. lia.
    + cbn [calls inFlight createComment]. split.
      * apply Forall_app. split; [exact H1|].
        constructor; [|constructor]. split; [exact E | reflexivity].
      * rewrite !filter_app, !length_app. cbn. lia.
  - unfold settle. destruct (inFlight st) as [|n] eqn:En.
    + split; [exact H1|]. rewrite En. lia.
    + assert (T : forall c, wellSent c -> Forall wellSent (calls st ++ [c])).
      { intros c Hc. apply Forall_app. split; [exact H1|].
        constructor; [exact Hc | constructor]. }
      destruct r as [[comment|]|e];
        cbn [calls inFlight onCompleted onError].
      * split; [apply T; exact I|].
        rewrite !filter_app, !length_app. cbn. lia.
      * split; [exact H1|]. lia.
      * split; [apply T; exact I|].
        rewrite !filter_app, !length_app. cbn. lia.
  - unfold PostDetailView.queryFailed. cbn [calls inFlight]. split.
    + apply Forall_app. split; [exact H1 | now repeat constructor].
    + rewrite !filter_app, !length_app. cbn. lia.
Qed.

Lemma run_accounts acts : forall st,
  Forall wellSent (calls st) ->
  let st' := PostDetailView.run postId acts st in
  Forall wellSent (calls st') /\
  tally isSuccess st' + inFlight st' + tally isMutation st
  <= tally isMutation st' + tally isSuccess st + inFlight st /\
  tally isOutcome st' + inFlight st' + tally isMutation st
  <= tally isMutation st' + tally isOutcome st + inFlight st
     + queryFailures acts.
Proof.
  induction acts as [|a acts IH]; intros st H st'.
  - subst st'. split; [exact H|]. unfold queryFailures. cbn. lia.
  - destruct (step_accounts a st H) as [H1 [H2 H3]].
    destruct (IH (PostDetailView.step postId st a) H1) as [G1 [G2 G3]].
    subst st'.
    change (PostDetailView.run postId (a :: acts) st)
      with (PostDetailView.run postId acts (PostDetailView.step postId st a)).
    split; [exact G1|].
    assert (Q : queryFailures (a :: acts)
                = queryFailures [a] + queryFailures acts).
    { unfold queryFailures. cbn [filter].
      destruct (PostDetailView.isQueryFailed a); cbn; lia. }
    rewrite Q. lia.
Qed.

(** X15. Two submits in a row send the comment once: the first resets
    the contents, so the second is blocked by the required rule and only
    sets the error of the field. *)
Theorem second_submit_of_a_comment_is_blocked (st : State) :
  contents st <> EmptyString ->
  let st1 := onSubmit postId st in
  let st2 := onSubmit postId st1 in
  calls st2 = calls st ++ [createCommentMutation (variablesOf postId (contents st) st)] /\
  inFlight st2 = S (inFlight st) /\
  contents st2 = EmptyString /\
  error st1 = None /\
  error st2 = Some "댓글을 입력해주세요".
Proof.
  intros H st1 st2. subst st2 st1.
  rewrite (PostDetailPageFacts.onSubmit_nonempty postId st H).
  unfold onSubmit. cbn [contents createComment String.eqb].
  cbn [calls inFlight contents error createComment].
  repeat split; reflexivity.
Qed.

(** X16. In every session of the composer, each mutation that was sent
    carries non-empty contents and the id of this post; the success toasts
    together with the mutations still in flight never outnumber the
    mutations sent; and all the toasts of the page, those of failed
    queries included, together with the mutations in flight never
    outnumber the mutations sent and the queries that failed. *)
Theorem composer_sends_only_real_comments (acts : list PostDetailView.Action) :
  let st := PostDetailView.run postId acts initial in
  (forall v, In (createCommentMutation v) (calls st) ->
     var_contents v <> EmptyString /\ var_postId v = postId) /\
  length (filter isSuccess (calls st)) + inFlight st
  <= length (filter isMutation (calls st)) /\
  length (filter isOutcome (calls st)) + inFlight st
  <= length (filter isMutation (calls st)) + queryFailures acts.
Proof.
  intros st.
  destruct (run_accounts acts initial) as [H1 [H2 H3]]; [constructor|].
  fold st in H1, H2, H3. unfold tally in H2, H3. cbn in H2, H3.
  split; [|split; lia].
  intros v Hv. rewrite Forall_forall in H1. exact (H1 _ Hv).
Qed.

End Page.

End ComposerFacts.

(** ** The colours of the navigation tabs *)

Module NavigationColourFacts.
Import NavigationLayout.

(** X20. When the text colour and the achromatic colour differ, the
    colour of each tab tells whether it is selected: the post-list tab has
    the text colour exactly on the path "/", the event tab exactly on the
    paths that start with "/event", and the two tabs never both have
    it. *)
Theorem colours_show_the_selection (text achromatic asPath : string) :
  text <> achromatic ->
  (postListColor (render text achromatic asPath) = text <-> asPath = "/") /\
  (eventListColor (render text achromatic asPath) = text <->
   JS.startsWith asPath "/event" = true) /\
  ~ (postListColor (render text achromatic asPath) = text /\
     eventListColor (render text achromatic asPath) = text).
Proof.
  intros Hne. unfold render. cbn [postListColor eventListColor].
  fold (doesEventListSelected asPath).
  assert (P : String.eqb asPath "/" = true <-> asPath = "/")
    by apply String.eqb_eq.
  destruct (doesPostListSelected asPath) eqn:Ep,
           (doesEventListSelected asPath) eqn:Ee;
    unfold doesPostListSelected in Ep.
  - exfalso. apply P in Ep. subst asPath. discriminate Ee.
  - split; [tauto|]. split.
    + split; [congruence | discriminate].
    + intros [_ H]. congruence.
  - split; [|split].
    + split; [congruence|]. intros H. apply P in H. congruence.
    + tauto.
    + intros [H _]. congruence.
  - split; [|split].
    + split; [congruence|]. intros H. apply P in H. congruence.
    + split; [congruence | discriminate].
    + intros [H _]. congruence.
Qed.

End NavigationColourFacts.

(** ** Witnesses on concrete sessions *)

Module ScenarioMore.
Import PostUpdatePage.

(** The witness of [removal_commutes_with_selection]. *)
Lemma removal_commutes_witness :
  deletePreviewImage 0
    (createPreviewImages Scenario.objectURL (Some [Scenario.jpg])
       Scenario.filled)
  = createPreviewImages Scenario.objectURL (Some [Scenario.jpg])
      (deletePreviewImage 0 Scenario.filled).
Proof.
  apply (StagingFacts.removal_commutes_with_selection Scenario.objectURL 0
           [Scenario.jpg] Scenario.filled).
  reflexivity.
Defined.

(** The witness of [stage_then_remove_restores]. *)
Lemma stage_then_remove_witness :
  deletePreviewImage 2
    (createPreviewImages Scenario.objectURL (Some [Scenario.jpg])
       Scenario.filled)
  = setRefs (formData Scenario.filled) 4 Scenario.filled.
Proof.
  apply (BundleFacts.stage_then_remove_restores "post-1" Scenario.objectURL
           [TitleTyped "t"; ContentsTyped "c";
            FilesSelected (Some [Scenario.png])]
           Scenario.jpg eq_refl).
Defined.

(** The witness of [loading_means_a_submission_is_pending]. *)
Lemma loading_witness :
  pending (onSubmit "post-1" Scenario.filled) <> [].
Proof.
  apply (SubmissionFacts.loading_means_a_submission_is_pending
           "post-1" Scenario.objectURL true
           [TitleTyped "t"; ContentsTyped "c";
            FilesSelected (Some [Scenario.png]); FormSubmitted]
           eq_refl).
Defined.

(** The witness of [blocked_submit_disables_the_button]. *)
Lemma blocked_button_witness :
  submitDisabled false (onSubmit "post-1" (initial true)) = true.
Proof.
  apply (SubmissionFacts.blocked_submit_disables_the_button
           "post-1" false (initial true)).
  left. reflexivity.
Defined.

(** The witness of [completed_submission]. *)
Lemma completed_submission_witness :
  isPostUpdateLoading
    (settle 0 (MutationCompleted (Some "post-1"))
       (onSubmit "post-1" Scenario.filled))
  = false.
Proof.
  apply (SubmissionFacts.completed_submission "post-1" Scenario.objectURL true
           [TitleTyped "t"; ContentsTyped "c";
            FilesSelected (Some [Scenario.png])]
           "post-1" Scenario.filled_valid).
Defined.

(** The witness of [second_submit_of_a_comment_is_blocked]. *)
Lemma second_comment_submit_witness :
  PostDetailPage.inFlight
    (PostDetailPage.onSubmit "post-1"
       (PostDetailPage.onSubmit "post-1"
          (PostDetailPage.onChange "hi" PostDetailPage.initial)))
  = 1.
Proof.
  apply (ComposerFacts.second_submit_of_a_comment_is_blocked "post-1"
           (PostDetailPage.onChange "hi" PostDetailPage.initial)).
  discriminate.
Defined.

(** The witness of [colours_show_the_selection]. *)
Lemma colours_witness :
  ~ (NavigationLayout.postListColor
       (NavigationLayout.render "#2d2c2c" "#b5b5b5" "/event/3") = "#2d2c2c" /\
     NavigationLayout.eventListColor
       (NavigationLayout.render "#2d2c2c" "#b5b5b5" "/event/3") = "#2d2c2c").
Proof.
  apply (NavigationColourFacts.colours_show_the_selection
           "#2d2c2c" "#b5b5b5" "/event/3").
  discriminate.
Defined.

End ScenarioMore.

(** ** The other handlers of the update page *)

Module PostUpdateEvents.
Import PostUpdatePage.

(** [goBack], the click on the close icon of the header. *)
Definition goBack (st : State) : State := call [router_back] st.

(** [onError: toastApolloError] of [usePostQuery]. *)
Definition postQueryFailed (e : string) (st : State) : State :=
  call [toastApolloError e] st.

(** The click on the remove button of a slide that shows a fetched URL:
    [deletePreviewImage(imageInfo.id)] where the id is undefined.  The
    key deleted is [`image${undefined}`], and the filter
    [prev.id !== undefined] keeps the previews, which have an id, and
    drops every fetched URL. *)
Definition deleteFetchedSlide (st : State) : State :=
  match formData st with
  | Some fd =>
      setImageInfos
        (filter (fun prev => isSome (info_id prev)) (imageInfos st))
        (setRefs (Some (FormData.delete fd "imageundefined")) (imageId st) st)
  | None => st
  end.

(** Everything that can happen to a mounted page: the actions of a
    session and the three handlers above. *)
Inductive Event :=
| Handled (a : Action)
| PostQueryFailed (error : string)
| CloseClicked
| FetchedSlideDeleteClicked.

Definition isPostQueryFailed (ev : Event) : bool :=
  match ev with PostQueryFailed _ => true | _ => false end.

Definition isCloseClicked (ev : Event) : bool :=
  match ev with CloseClicked => true | _ => false end.

Section Page.

Variable postId : string.
Variable createObjectURL : File -> string.

Definition stepEvent (st : State) (ev : Event) : State :=
  match ev with
  | Handled a => step postId createObjectURL st a
  | PostQueryFailed e => postQueryFailed e st
  | CloseClicked => goBack st
  | FetchedSlideDeleteClicked => deleteFetchedSlide st
  end.

Definition runEvents (evs : list Event) (st : State) : State :=
  fold_left stepEvent evs st.

End Page.

End PostUpdateEvents.

Module PostUpdateEventFacts.
Import PostUpdatePage PostUpdatePageFacts SessionFacts PostUpdateEvents.

Definition queryFailures (evs : list Event) : nat :=
  length (filter isPostQueryFailed evs).

Definition closeClicks (evs : list Event) : nat :=
  length (filter isCloseClicked evs).

Lemma idsOf_defined l :
  idsOf (filter (fun prev => isSome (info_id prev)) l) = idsOf l.
Proof.
  induction l as [|[id url|url] l IH]; [reflexivity| |exact IH].
  cbn [filter info_id isSome idsOf flat_map app]. f_equal. exact IH.
Qed.

Section Page.

Variable postId : string.
Variable createObjectURL : File -> string.

Local Abbreviation step' := (step postId createObjectURL).
Local Abbreviation stepEvent' := (stepEvent postId createObjectURL).
Local Abbreviation runEvents' := (runEvents postId createObjectURL).

Lemma wellStaged_deleteFetchedSlide st :
  wellStaged st -> wellStaged (deleteFetchedSlide st).
Proof.
  intros W. unfold deleteFetchedSlide.
  destruct (formData st) as [fd|] eqn:Hfd; [|exact W].
  destruct W as [H1 H2 H3 H4]. unfold bundleKeys, previewIds in *.
  rewrite Hfd in *.
  split; unfold bundleKeys, previewIds;
    cbn [imageInfos formData imageId setImageInfos setRefs].
  - rewrite FormDataFacts.keys_delete.
    eapply incl_Forall; [apply incl_filter | exact H1].
  - fold (idsOf (filter (fun prev => isSome (info_id prev)) (imageInfos st))).
    rewrite idsOf_defined. exact H2.
  - rewrite FormDataFacts.keys_delete. now apply NoDup_filter.
  - fold (idsOf (filter (fun prev => isSome (info_id prev)) (imageInfos st))).
    rewrite idsOf_defined. exact H4.
Qed.

Lemma wellStaged_stepEvent ev st :
  wellStaged st -> wellStaged (stepEvent' st ev).
Proof.
  intros W. destruct ev as [a|e| |]; cbn [stepEvent].
  - now apply wellStaged_step.
  - eapply wellStaged_ext; [|exact W]. reflexivity.
  - eapply wellStaged_ext; [|exact W]. reflexivity.
  - now apply wellStaged_deleteFetchedSlide.
Qed.

(** What an event adds to the log and to the suspended calls. *)
Definition accounts (ev : Event) (st st' : State) : Prop :=
  Forall (eq AfterMutation) (pending st') /\
  count isSuccess st' + length (pending st') + count isMutation st
  <= count isMutation st' + count isSuccess st + length (pending st) /\
  count isSuccess st' + count isErrorToast st' + length (pending st')
  + count isMutation st
  <= count isMutation st' + count isSuccess st + count isErrorToast st
     + length (pending st) + queryFailures [ev] /\
  count isBack st' + count isSuccess st
  = count isSuccess st' + count isBack st + closeClicks [ev].

Lemma accounts_same ev st st' :
  isCloseClicked ev = false ->
  Forall (eq AfterMutation) (pending st) ->
  control st' = control st -> accounts ev st st'.
Proof.
  unfold control, accounts, count, closeClicks. intros Hc H E.
  injection E as El Ep Ec. cbn [filter]. rewrite Hc, Ep, Ec.
  split; [exact H|]. cbn [length]. lia.
Qed.

Lemma accounts_step a st :
  wellStaged st -> Forall (eq AfterMutation) (pending st) ->
  accounts (Handled a) st (step' st a).
Proof.
  intros W H1.
  destruct a as [text|text|post|files|id| |n r]; cbn [step].
  - apply accounts_same; [reflexivity | exact H1 | reflexivity].
  - apply accounts_same; [reflexivity | exact H1 | reflexivity].
  - apply accounts_same; [reflexivity | exact H1 | apply SubmissionFacts.control_query].
  - apply accounts_same; [reflexivity | exact H1 | apply SubmissionFacts.control_create].
  - apply accounts_same; [reflexivity | exact H1 | apply SubmissionFacts.control_delete].
  - unfold onSubmit. destruct (isEmpty (validate (values st))) eqn:E.
    + rewrite updatePost_wellStaged
        by (eapply wellStaged_ext; [|exact W]; reflexivity).
      unfold accounts, count, queryFailures, closeClicks.
      cbn [calls pending setPending call setIsPostUpdateLoading setErrors].
      split; [apply Forall_app; split; [exact H1 | now repeat constructor]|].
      rewrite !filter_app, !length_app. cbn. lia.
    + unfold accounts, count, queryFailures, closeClicks.
      cbn [calls pending call setErrors]. split; [exact H1|].
      rewrite !filter_app, !length_app.
      unfold errorEffect. destruct (_ || _); cbn; lia.
  - unfold settle.
    destruct (nth_error (pending st) n) as [k|] eqn:Hn;
      [|apply accounts_same; [reflexivity | exact H1 | reflexivity]].
    assert (Hk : k = AfterMutation).
    { rewrite Forall_forall in H1. symmetry. apply H1.
      eapply nth_error_In, Hn. }
    assert (Hl := removeNth_length (pending st) n k Hn).
    assert (Hf := removeNth_Forall (eq AfterMutation) (pending st) n H1).
    subst k.
    destruct r as [urls|reason|[post|]|e]; cbn [resume];
      try (apply accounts_same; [reflexivity | exact H1 | reflexivity]);
      unfold accounts, count, queryFailures, closeClicks;
      cbn [calls pending onCompleted onError
           setPending call setIsPostUpdateLoading];
      (split; [exact Hf|]);
      rewrite ?filter_app, ?length_app; cbn; lia.
Qed.

Lemma accounts_stepEvent ev st :
  wellStaged st -> Forall (eq AfterMutation) (pending st) ->
  accounts ev st (stepEvent' st ev).
Proof.
  intros W H1. destruct ev as [a|e| |]; cbn [stepEvent].
  - now apply accounts_step.
  - unfold accounts, count, queryFailures, closeClicks, postQueryFailed.
    cbn [calls pending call]. split; [exact H1|].
    rewrite !filter_app, !length_app. cbn. lia.
  - unfold accounts, count, queryFailures, closeClicks, goBack.
    cbn [calls pending call]. split; [exact H1|].
    rewrite !filter_app, !length_app. cbn. lia.
  - apply accounts_same; [reflexivity | exact H1 |].
    unfold deleteFetchedSlide.
    now destruct (formData st).
Qed.

Lemma accounts_run evs : forall st,
  wellStaged st -> Forall (eq AfterMutation) (pending st) ->
  let st' := runEvents' evs st in
  count isSuccess st' + length (pending st') + count isMutation st
  <= count isMutation st' + count isSuccess st + length (pending st) /\
  count isSuccess st' + count isErrorToast st' + length (pending st')
  + count isMutation st
  <= count isMutation st' + count isSuccess st + count isErrorToast st
     + length (pending st) + queryFailures evs /\
  count isBack st' + count isSuccess st
  = count isSuccess st' + count isBack st + closeClicks evs.
Proof.
  induction evs as [|ev evs IH]; intros st W H1 st'.
  - subst st'. unfold queryFailures, closeClicks. cbn. lia.
  - destruct (accounts_stepEvent ev st W H1) as [G1 [G2 [G3 G4]]].
    destruct (IH (stepEvent' st ev) (wellStaged_stepEvent ev st W) G1)
      as [I2 [I3 I4]].
    subst st'.
    change (runEvents' (ev :: evs) st)
      with (runEvents' evs (stepEvent' st ev)).
    assert (Q : queryFailures (ev :: evs)
                = queryFailures [ev] + queryFailures evs).
    { unfold queryFailures. cbn [filter].
      destruct (isPostQueryFailed ev); cbn; lia. }
    assert (C : closeClicks (ev :: evs)
                = closeClicks [ev] + closeClicks evs).
    { unfold closeClicks. cbn [filter].
      destruct (isCloseClicked ev); cbn; lia. }
    rewrite Q, C. lia.
Qed.

(** X10. Over everything that can happen to the page - the actions of a
    session, a failure of the post query, a click on the close icon, the
    removal of a fetched slide - no success is shown without its
    mutation: the success toasts and the submissions still suspended
    never outnumber the mutation calls; all the error and success toasts
    together with the suspended submissions never outnumber the mutation
    calls and the failures of the query; and the page has gone back as
    often as it has shown a success toast or the close icon was
    clicked. *)
Theorem outcomes_are_accounted_for
  (hasFormData : bool) (evs : list Event) :
  let st := runEvents' evs (initial hasFormData) in
  length (filter isSuccess (calls st)) + length (pending st)
  <= length (filter isMutation (calls st)) /\
  length (filter isSuccess (calls st))
  + length (filter isErrorToast (calls st)) + length (pending st)
  <= length (filter isMutation (calls st)) + queryFailures evs /\
  length (filter isBack (calls st))
  = length (filter isSuccess (calls st)) + closeClicks evs.
Proof.
  intros st.
  destruct (accounts_run evs (initial hasFormData)
              (wellStaged_initial hasFormData)) as [H1 [H2 H3]];
    [constructor|].
  fold st in H1, H2, H3. unfold count in H1, H2, H3.
  cbn [calls pending initial filter length] in H1, H2, H3.
  repeat split; lia.
Qed.

End Page.

End PostUpdateEventFacts.

(** ** The witness of the rejected upload *)

Module ScenarioUpload.
Import PostUpdatePage.




End ScenarioUpload.
